(** * The monthly panel of [src/data/loader.py]

    A shallow embedding of the class [DataLoader] ([__init__], [load_all],
    [create_merged_monthly_dataset]) and of the script at the end of the
    module, and the properties of the merged monthly panel that follow from
    the code.

    The loader is written against pandas.  The embedding fixes the schema of
    the five tables (the columns the loader names, with the types they load
    with: text for identifiers, codes, names and the unparsed [Listdt],
    timestamps for the dates of [parse_dates], float64 for the turnover;
    the market value, which the loader computes with, has the dtype
    [read_csv] infers for it) and gives every pandas call the meaning pandas
    documents for it:
    - [pd.merge(..., how='left')] keeps the rows of the left frame in order
      and, for each of them, every matching row of the right frame in the
      order of the right frame, or one row of nulls when nothing matches;
      null keys match each other;
    - [sort_values] on one column sorts the non-null keys with numpy's
      [argsort] (default [kind='quicksort'], which is not stable) and puts
      the null keys last, in their original order; numpy's [argsort] is a
      parameter of the embedding, [np_argsort];
    - [sort_values] on several columns is a stable lexicographic sort with
      nulls last in each key;
    - [groupby(key).last()] drops null keys, orders the groups by key and
      takes, column by column, the last non-null entry of the group;
    - [read_csv] with [dtype=str] keeps the token of a field, except that
      the default missing-value markers still load as null;
    - text is compared as Python compares [str], by code point; a [string]
      here holds the bytes of the UTF-8 encoding, whose order is the same;
    - [pathlib] is that of a POSIX system: a path is built from its text
      without looking at the file system, [p.parent] drops the last
      component and [p / q] is [q] when [q] is absolute.
    The progress messages printed by the loader are not modelled; of the
    script at the end of the module, the values it prints are. *)

From Stdlib Require Import ZArith Ascii Floats.PrimFloat.
From stdpp Require Import prelude strings sorting gmap.

Local Open Scope Z_scope.
Local Open Scope nat_scope.
#[local] Set Warnings "-inexact-float".

(** * The program *)

(** ** Column orders *)

(** Nulls (NaN, NaT) come after every value: [na_position='last']. *)
Definition na_last {A} (R : relation A) : relation (option A) :=
  λ x y, match x, y with
         | Some a, Some b => R a b
         | _, None => True
         | None, Some _ => False
         end.

Global Instance na_last_dec {A} (R : relation A) `{!RelDecision R} :
  RelDecision (na_last R).
Proof. intros [a|] [b|]; simpl; apply _. Defined.

(** Lexicographic order on a pair of keys, the first one leading. *)
Definition lex_le {A B} (R1 : relation A) (R2 : relation B) : relation (A * B) :=
  λ k1 k2, R1 k1.1 k2.1 ∧ (R1 k2.1 k1.1 → R2 k1.2 k2.2).

Global Instance lex_le_dec {A B} (R1 : relation A) (R2 : relation B)
  `{!RelDecision R1, !RelDecision R2} : RelDecision (lex_le R1 R2).
Proof. intros k1 k2. unfold lex_le. apply _. Defined.

(** Rows compared by a key. *)
Definition on_key {A K : Type} (key : A → K) (R : relation K) : relation A :=
  λ x y, R (key x) (key y).

Global Instance on_key_dec {A K} (key : A → K) (R : relation K)
  `{!RelDecision R} : RelDecision (on_key key R).
Proof. intros x y. unfold on_key. apply _. Defined.

(** The order of [sort_values(['Stkcd', 'Trdmnt'])]: identifiers as Python
    compares [str], months as timestamps, nulls last in both. *)
Definition panel_key_le : relation (option string * option Z) :=
  lex_le (na_last String.le) (na_last Z.le).

(** ** A stable sort

    The result of a stable sort is determined by the order alone, whatever
    the algorithm; insertion from the right is the simplest one. *)
Section stable_sort.
Context {A : Type} (R : relation A) `{!RelDecision R}.

Fixpoint insert_sorted (x : A) (l : list A) : list A :=
  match l with
  | [] => [x]
  | y :: l' => if decide (R x y) then x :: l else y :: insert_sorted x l'
  end.

Definition stable_sort (l : list A) : list A := foldr insert_sorted [] l.

End stable_sort.

(** ** The tables

    One record per table, with the columns the loader names.  A column read
    as text holds [option string] (null is [None]); a date column parsed by
    [parse_dates] holds [option Z], a timestamp (NaT is [None]); a float64
    column holds a binary64 [float], whose null is [nan]. *)

(** The column [Msmvosd] has no declared dtype and the loader multiplies
    it: the dtype decides what the product is.  [read_csv] infers int64 when
    every token is an integer (uint64 when they are not negative and one is
    too large for int64), float64 when every token is a number or missing
    and not all are integers, bool when every token is a truth value, and
    object otherwise; the elements of an object column are the tokens
    themselves, as [str], and NaN for the missing ones.  An element of the
    column, with the dtype of the column: *)
Inductive scalar :=
  | Int64 (z : Z)
  | UInt64 (z : Z)
  | Float64 (x : float)
  | Bool (b : bool)
  | Str (s : string).

(** A binary64 number is an element of a float64 column, and the NaN of an
    object column. *)
Coercion Float64 : float >-> scalar.

Module Basic.
(** [basic_info.txt]; [Listdt] is not parsed as a date, it stays text. *)
Record row := mk {
  Stkcd : option string;
  Markettype : option Z;
  Listdt : option string }.
End Basic.

Module Industry.
(** [csrc2012_industry.txt]; [Listdt] is not in [parse_dates] either: its
    dates, such as 2010-01-01, stay text and are compared as text. *)
Record row := mk {
  Stkcd : option string;
  Nnindcd : option string;
  Nnindnme : option string;
  Listdt : option string }.
End Industry.

Module Daily.
Record row := mk {
  Stkcd : option string;
  Trddt : option Z;
  fields : list float }.
End Daily.

Module Monthly.
(** [monthly_trade.txt]: the market value [Msmvosd] in thousands, and the
    other trade fields, which the panel carries along unchanged. *)
Record row := mk {
  Stkcd : option string;
  Trdmnt : option Z;
  Msmvosd : scalar;
  fields : list float }.

Definition key (r : row) : option string * option Z := (Stkcd r, Trdmnt r).
End Monthly.

Module Turnover.
Record row := mk {
  Stkcd : option string;
  Trdmnt : option Z;
  ToverOsM : float }.

Definition key (r : row) : option string * option Z := (Stkcd r, Trdmnt r).
End Turnover.

(** [monthly_merged] after the merge with the turnover table. *)
Module Merged1.
Record row := mk {
  trade : Monthly.row;
  ToverOsM : float }.
End Merged1.

(** [monthly_merged] after the merge with the latest industry. *)
Module Merged2.
Record row := mk {
  trade : Monthly.row;
  ToverOsM : float;
  Nnindcd : option string;
  Nnindnme : option string }.
End Merged2.

(** [monthly_merged] after the merge with the basic information: the rows of
    the panel. *)
Module Panel.
Record row := mk {
  trade : Monthly.row;
  ToverOsM : float;
  Nnindcd : option string;
  Nnindnme : option string;
  Markettype : option Z;
  Listdt : option string }.

Definition Stkcd (r : row) : option string := Monthly.Stkcd (trade r).
Definition Trdmnt (r : row) : option Z := Monthly.Trdmnt (trade r).
Definition Msmvosd (r : row) : scalar := Monthly.Msmvosd (trade r).
Definition key (r : row) : option string * option Z := Monthly.key (trade r).
End Panel.

(** A pandas DataFrame with one of the schemas above. *)
Inductive DataFrame :=
  | BasicInfo (rows : list Basic.row)
  | IndustryInfo (rows : list Industry.row)
  | DailyTrade (rows : list Daily.row)
  | MonthlyTrade (rows : list Monthly.row)
  | TurnoverMonthly (rows : list Turnover.row)
  | MonthlyMerged1 (rows : list Merged1.row)
  | MonthlyMerged2 (rows : list Merged2.row)
  | MonthlyMerged (rows : list Panel.row).

(** ** pandas *)

(** [pd.merge(left, right, on=key, how='left')]: the rows one left row
    yields, then the whole merge. *)
Definition merge_row {L R K Out : Type} `{EqDecision K}
    (lkey : L → K) (rkey : R → K) (join : L → option R → Out)
    (right : list R) (l : L) : list Out :=
  match filter (λ r, rkey r = lkey l) right with
  | [] => [join l None]
  | rs => join l ∘ Some <$> rs
  end.

Definition merge_left {L R K Out : Type} `{EqDecision K}
    (lkey : L → K) (rkey : R → K) (join : L → option R → Out)
    (left : list L) (right : list R) : list Out :=
  left ≫= merge_row lkey rkey join right.

(** [df.take(indexer)]: the rows at the positions of [indexer], in that
    order.  numpy raises on a position out of range; an argsort returns
    none. *)
Definition take_rows {A : Type} (df : list A) (indexer : list nat) : list A :=
  omap (df !!.) indexer.

(** The last non-null entry of a column, null when there is none. *)
Definition last_valid {A : Type} (column : list (option A)) : option A :=
  last (omap id column).

(** An [argsort] on a column of text: the positions ordered by value, those
    of equal values by [ties]. *)
Definition argsort_by (ties : relation nat) `{!RelDecision ties}
    (ks : list string) : list nat :=
  snd <$> stable_sort (lex_le String.le ties) (zip ks (seq 0 (length ks))).

(** [np.argsort(kind='stable')]: equal values in the order of their
    positions. *)
Definition stable_argsort : list string → list nat := argsort_by le.

(** What numpy promises of [argsort], whatever the [kind]: a permutation of
    the positions that puts the values in order. *)
Definition argsort_sorts (argsort : list string → list nat) : Prop :=
  ∀ ks, argsort ks ≡ₚ seq 0 (length ks) ∧
        StronglySorted String.le (take_rows ks (argsort ks)).

(** What only the stable kinds promise: equal values keep their order. *)
Definition argsort_stable (argsort : list string → list nat) : Prop :=
  ∀ ks, StronglySorted
          (λ i j, ∀ a b, ks !! i = Some a → ks !! j = Some b →
                         lex_le String.le le (a, i) (b, j))
          (argsort ks).

(** ** [create_merged_monthly_dataset], the tables as values *)

Section pipeline.
(** numpy's [argsort], as called by [sort_values('Listdt')]. *)
Variable np_argsort : list string → list nat.

(** [industry.sort_values('Listdt')]: the rows with a date in the order
    [argsort] gives their dates, then the rows without, as they come. *)
Definition sort_values_Listdt (df : list Industry.row) : list Industry.row :=
  let non_nans := filter (λ r, is_Some (Industry.Listdt r)) df in
  let nans := filter (λ r, Industry.Listdt r = None) df in
  take_rows non_nans (np_argsort (omap Industry.Listdt non_nans)) ++ nans.

(** [df.groupby('Stkcd').last().reset_index()]: the row of one group,
    then one row per identifier of the frame, the identifiers in order. *)
Definition group_last (df : list Industry.row) (s : string) : Industry.row :=
  let group := filter (λ r, Industry.Stkcd r = Some s) df in
  Industry.mk (Some s)
    (last_valid (Industry.Nnindcd <$> group))
    (last_valid (Industry.Nnindnme <$> group))
    (last_valid (Industry.Listdt <$> group)).

Definition groupby_Stkcd_last (df : list Industry.row) : list Industry.row :=
  group_last df <$> stable_sort String.le (remove_dups (omap Industry.Stkcd df)).

Definition latest_industry (industry : list Industry.row) : list Industry.row :=
  groupby_Stkcd_last (sort_values_Listdt industry).

(** Step 1: [pd.merge(monthly, turnover[['Stkcd', 'Trdmnt', 'ToverOsM']],
    on=['Stkcd', 'Trdmnt'], how='left')]. *)
Definition merge_turnover (monthly : list Monthly.row)
    (turnover : list Turnover.row) : list Merged1.row :=
  merge_left Monthly.key Turnover.key
    (λ m t, Merged1.mk m (from_option Turnover.ToverOsM nan t))
    monthly turnover.

(** Step 2: [pd.merge(monthly_merged,
    latest_industry[['Stkcd', 'Nnindcd', 'Nnindnme']], on='Stkcd',
    how='left')]. *)
Definition merge_industry (merged : list Merged1.row)
    (latest : list Industry.row) : list Merged2.row :=
  merge_left (Monthly.Stkcd ∘ Merged1.trade) Industry.Stkcd
    (λ m i, Merged2.mk (Merged1.trade m) (Merged1.ToverOsM m)
              (i ≫= Industry.Nnindcd) (i ≫= Industry.Nnindnme))
    merged latest.

(** Step 3: [pd.merge(monthly_merged,
    basic[['Stkcd', 'Markettype', 'Listdt']], on='Stkcd', how='left')]. *)
Definition merge_basic (merged : list Merged2.row)
    (basic : list Basic.row) : list Panel.row :=
  merge_left (Monthly.Stkcd ∘ Merged2.trade) Basic.Stkcd
    (λ m b, Panel.mk (Merged2.trade m) (Merged2.ToverOsM m)
              (Merged2.Nnindcd m) (Merged2.Nnindnme m)
              (b ≫= Basic.Markettype) (b ≫= Basic.Listdt))
    merged basic.

(** Step 4: [monthly_merged.sort_values(['Stkcd', 'Trdmnt'])]. *)
Definition sort_values_Stkcd_Trdmnt (df : list Panel.row) : list Panel.row :=
  stable_sort (on_key Panel.key panel_key_le) df.

(** Integers of 64 bits keep what fits of a result: numpy does not check
    for overflow. *)
Definition wrap_int64 (z : Z) : Z := ((z + 2 ^ 63) mod 2 ^ 64 - 2 ^ 63)%Z.

Definition wrap_uint64 (z : Z) : Z := (z mod 2 ^ 64)%Z.

(** [s * n] on a Python [str]: [s] repeated [n] times. *)
Fixpoint str_mul (s : string) (n : nat) : string :=
  match n with
  | 0 => EmptyString
  | S n => String.append s (str_mul s n)
  end.

(** [x * 1000] on an element of a column: the product in the dtype of the
    column for numbers (a truth value counts as 1 or 0, in int64), the
    repeated text for a [str] of an object column. *)
Definition times_1000 (x : scalar) : scalar :=
  match x with
  | Int64 z => Int64 (wrap_int64 (z * 1000))
  | UInt64 z => UInt64 (wrap_uint64 (z * 1000))
  | Float64 x => Float64 (PrimFloat.mul x 1000%float)
  | Bool b => Int64 (if b then 1000 else 0)
  | Str s => Str (str_mul s 1000)
  end.

Definition scale_trade (m : Monthly.row) : Monthly.row :=
  Monthly.mk (Monthly.Stkcd m) (Monthly.Trdmnt m)
    (times_1000 (Monthly.Msmvosd m)) (Monthly.fields m).

(** Step 5: [monthly_merged['Msmvosd'] = monthly_merged['Msmvosd'] * 1000],
    the value of the column after the assignment. *)
Definition scale_Msmvosd (r : Panel.row) : Panel.row :=
  Panel.mk (scale_trade (Panel.trade r)) (Panel.ToverOsM r)
    (Panel.Nnindcd r) (Panel.Nnindnme r)
    (Panel.Markettype r) (Panel.Listdt r).

(** The three merges. *)
Definition merged_tables (monthly : list Monthly.row)
    (turnover : list Turnover.row) (industry : list Industry.row)
    (basic : list Basic.row) : list Panel.row :=
  merge_basic
    (merge_industry (merge_turnover monthly turnover) (latest_industry industry))
    basic.

(** The rows of the frame the function returns. *)
Definition merged_monthly (monthly : list Monthly.row)
    (turnover : list Turnover.row) (industry : list Industry.row)
    (basic : list Basic.row) : list Panel.row :=
  scale_Msmvosd <$>
    sort_values_Stkcd_Trdmnt (merged_tables monthly turnover industry basic).

End pipeline.

(** ** Objects and exceptions

    DataFrames are objects: the mapping [data_dict] holds references, and an
    assignment to a column changes the frame it is applied to, for every
    holder of a reference.  The store is the list of the frames allocated so
    far; a reference is a position in it. *)

Inductive exn :=
  | KeyError (key : string)
  | FileNotFoundError (file : string)
  | ParserError (file : string).

Inductive result (A : Type) :=
  | Ok (a : A)
  | Raise (e : exn).
Arguments Ok {A} a.
Arguments Raise {A} e.

(** A computation on the store that returns or raises.  Nothing in the
    loader catches an exception: it ends the computation. *)
Definition M (A : Type) : Type := list DataFrame → result A * list DataFrame.

Global Instance M_ret : MRet M := λ A a h, (Ok a, h).

Global Instance M_bind : MBind M := λ A B k m h,
  match m h with
  | (Ok a, h') => k a h'
  | (Raise e, h') => (Raise e, h')
  end.

Definition raise {A} (e : exn) : M A := λ h, (Raise e, h).

(** A new object. *)
Definition new (df : DataFrame) : M nat := λ h, (Ok (length h), h ++ [df]).

(** The object behind a reference; every reference a program holds is to an
    object, the error case is there for totality. *)
Definition deref (l : nat) : M DataFrame := λ h,
  match h !! l with
  | Some df => (Ok df, h)
  | None => (Raise (KeyError "object"), h)
  end.

(** An object changed in place. *)
Definition store (l : nat) (df : DataFrame) : M unit := λ h, (Ok (), <[l := df]> h).

(** [data_dict[key]]. *)
Definition getitem (data_dict : gmap string nat) (key : string) : M nat :=
  match data_dict !! key with
  | Some l => mret l
  | None => raise (KeyError key)
  end.

(** [df.copy()]. *)
Definition copy (l : nat) : M nat := df ← deref l; new df.

(** The rows of a frame, when it has the columns an operation asks for. *)
Definition monthly_rows (df : DataFrame) : option (list Monthly.row) :=
  match df with MonthlyTrade rows => Some rows | _ => None end.
Definition turnover_rows (df : DataFrame) : option (list Turnover.row) :=
  match df with TurnoverMonthly rows => Some rows | _ => None end.
Definition industry_rows (df : DataFrame) : option (list Industry.row) :=
  match df with IndustryInfo rows => Some rows | _ => None end.
Definition basic_rows (df : DataFrame) : option (list Basic.row) :=
  match df with BasicInfo rows => Some rows | _ => None end.
Definition merged1_rows (df : DataFrame) : option (list Merged1.row) :=
  match df with MonthlyMerged1 rows => Some rows | _ => None end.
Definition merged2_rows (df : DataFrame) : option (list Merged2.row) :=
  match df with MonthlyMerged2 rows => Some rows | _ => None end.
Definition panel_rows (df : DataFrame) : option (list Panel.row) :=
  match df with MonthlyMerged rows => Some rows | _ => None end.

(** A column an operation names is missing from the frame: pandas raises
    [KeyError]. *)
Definition columns {A} (rows : DataFrame → option (list A)) (column : string)
    (l : nat) : M (list A) :=
  df ← deref l;
  match rows df with
  | Some rs => mret rs
  | None => raise (KeyError column)
  end.

(** [df['Msmvosd'] = df['Msmvosd'] * 1000], in place, on any frame with that
    column. *)
Definition setitem_Msmvosd_times_1000 (l : nat) : M unit :=
  df ← deref l;
  match df with
  | MonthlyTrade rows => store l (MonthlyTrade (scale_trade <$> rows))
  | MonthlyMerged1 rows =>
      store l (MonthlyMerged1
        ((λ r, Merged1.mk (scale_trade (Merged1.trade r)) (Merged1.ToverOsM r))
           <$> rows))
  | MonthlyMerged2 rows =>
      store l (MonthlyMerged2
        ((λ r, Merged2.mk (scale_trade (Merged2.trade r)) (Merged2.ToverOsM r)
                 (Merged2.Nnindcd r) (Merged2.Nnindnme r)) <$> rows))
  | MonthlyMerged rows => store l (MonthlyMerged (scale_Msmvosd <$> rows))
  | _ => raise (KeyError "Msmvosd")
  end.

(** ** [__init__]

    [pathlib] on a POSIX system.  A path is its root (none for a relative
    path, [/], or [//], which POSIX keeps apart from [/]) and its
    components; [.] and empty components are dropped when a path is built,
    [..] is kept. *)
Module Path.
Inductive anchor :=
  | Relative
  | Root
  | TwoSlashes.

Record t := mk {
  root : anchor;
  parts : list string }.

(** [s.split('/')]. *)
Fixpoint split (s : string) : list string :=
  match s with
  | EmptyString => [EmptyString]
  | String c s' =>
      if decide (c = "/"%char) then EmptyString :: split s'
      else match split s' with
           | [] => [String c EmptyString]
           | x :: xs => String c x :: xs
           end
  end.

Definition starts_with_sep (s : string) : bool :=
  match s with
  | String c _ => bool_decide (c = "/"%char)
  | EmptyString => false
  end.

Definition tail (s : string) : string :=
  match s with
  | String _ s' => s'
  | EmptyString => EmptyString
  end.

(** [posixpath.splitroot]: the root and what follows it. *)
Definition splitroot (p : string) : anchor * string :=
  if negb (starts_with_sep p) then (Relative, p)
  else if negb (starts_with_sep (tail p)) || starts_with_sep (tail (tail p))
  then (Root, tail p)
  else (TwoSlashes, tail (tail p)).

(** [Path(p)]. *)
Definition parse (p : string) : t :=
  mk (splitroot p).1
     (filter (λ x, x ≠ EmptyString ∧ x ≠ ".") (split (splitroot p).2)).

(** [p.parent]: a path without components is its own parent. *)
Definition parent (p : t) : t := mk (root p) (removelast (parts p)).

(** [p / q]: an absolute [q] replaces [p]. *)
Definition joinpath (p q : t) : t :=
  match root q with
  | Relative => mk (root p) (parts p ++ parts q)
  | _ => q
  end.
End Path.

Record DataLoader := mk_DataLoader {
  raw_data_path : Path.t }.

(** [DataLoader(raw_data_path)] in the module at [__file__]. *)
Definition __init__ (__file__ : string) (raw_data_path : string) : DataLoader :=
  mk_DataLoader
    (Path.joinpath
       (Path.parent (Path.parent (Path.parent (Path.parse __file__))))
       (Path.parse raw_data_path)).

(** [DataLoader()]. *)
Definition default_raw_data_path : string := "../data/raw".

(** ** [load_all] *)

(** The fields of a file as the parser's tokenizer and its decoders of
    numbers and dates deliver them: a column of text holds the token, a
    column of numbers or of parsed dates the decoded value, the column
    [Msmvosd] its elements in the dtype inferred for it. *)
Module Raw.
Record basic := mk_basic {
  basic_Stkcd : string; basic_Markettype : option Z; basic_Listdt : string }.
Record industry := mk_industry {
  industry_Stkcd : string; industry_Nnindcd : string;
  industry_Nnindnme : string; industry_Listdt : string }.
Record daily := mk_daily {
  daily_Stkcd : string; daily_Trddt : option Z; daily_fields : list float }.
Record monthly := mk_monthly {
  monthly_Stkcd : string; monthly_Trdmnt : option Z;
  monthly_Msmvosd : scalar; monthly_fields : list float }.
Record turnover := mk_turnover {
  turnover_Stkcd : string; turnover_Trdmnt : option Z;
  turnover_ToverOsM : float }.
End Raw.

(** The tokens that [read_csv] reads as missing by default
    ([keep_default_na=True]); [dtype=str] does not switch this off. *)
Definition STR_NA_VALUES : list string :=
  [EmptyString; "#N/A"; "#N/A N/A"; "#NA"; "-1.#IND"; "-1.#QNAN"; "-NaN";
   "-nan"; "1.#IND"; "1.#QNAN"; "<NA>"; "N/A"; "NA"; "NULL"; "NaN"; "None";
   "n/a"; "nan"; "null"].

(** A field of a column of text: the token as it is, never a number. *)
Definition read_str (token : string) : option string :=
  if decide (token ∈ STR_NA_VALUES) then None else Some token.

(** The rows [read_csv] builds for each file, with the [dtype] of the call:
    [Stkcd] is declared [str] for all five, [Nnindcd] for the industry
    file; the other columns of text hold no numbers and stay text. *)
Definition read_basic (r : Raw.basic) : Basic.row :=
  Basic.mk (read_str (Raw.basic_Stkcd r)) (Raw.basic_Markettype r)
    (read_str (Raw.basic_Listdt r)).
Definition read_industry (r : Raw.industry) : Industry.row :=
  Industry.mk (read_str (Raw.industry_Stkcd r))
    (read_str (Raw.industry_Nnindcd r)) (read_str (Raw.industry_Nnindnme r))
    (read_str (Raw.industry_Listdt r)).
Definition read_daily (r : Raw.daily) : Daily.row :=
  Daily.mk (read_str (Raw.daily_Stkcd r)) (Raw.daily_Trddt r)
    (Raw.daily_fields r).
Definition read_monthly (r : Raw.monthly) : Monthly.row :=
  Monthly.mk (read_str (Raw.monthly_Stkcd r)) (Raw.monthly_Trdmnt r)
    (Raw.monthly_Msmvosd r) (Raw.monthly_fields r).
Definition read_turnover (r : Raw.turnover) : Turnover.row :=
  Turnover.mk (read_str (Raw.turnover_Stkcd r)) (Raw.turnover_Trdmnt r)
    (Raw.turnover_ToverOsM r).

(** A file of the data directory: not there, there but not a table the
    parser accepts (no columns, a column of [parse_dates] missing, ...), or
    a table. *)
Inductive file (A : Type) :=
  | Absent
  | Unparsable
  | Parsed (rows : list A).
Arguments Absent {A}.
Arguments Unparsable {A}.
Arguments Parsed {A} rows.

(** The files under [self.raw_data_path]. *)
Record directory := mk_directory {
  basic_info_txt : file Raw.basic;
  csrc2012_industry_txt : file Raw.industry;
  daily_trade_txt : file Raw.daily;
  monthly_trade_txt : file Raw.monthly;
  turnover_monthly_txt : file Raw.turnover }.

(** [pd.read_csv(path, sep='\s+', dtype=..., parse_dates=...)]. *)
Definition read_csv {A} (name : string) (f : file A)
    (frame : list A → DataFrame) : M nat :=
  match f with
  | Absent => raise (FileNotFoundError name)
  | Unparsable => raise (ParserError name)
  | Parsed rows => new (frame rows)
  end.

Definition load_all (raw_data : directory) : M (gmap string nat) :=
  let data_dict : gmap string nat := ∅ in
  basic_info ← read_csv "basic_info.txt" (basic_info_txt raw_data)
                  (BasicInfo ∘ fmap read_basic);
  let data_dict := <["basic_info" := basic_info]> data_dict in
  industry_info ← read_csv "csrc2012_industry.txt"
                    (csrc2012_industry_txt raw_data)
                    (IndustryInfo ∘ fmap read_industry);
  let data_dict := <["industry" := industry_info]> data_dict in
  daily_trade ← read_csv "daily_trade.txt" (daily_trade_txt raw_data)
                  (DailyTrade ∘ fmap read_daily);
  let data_dict := <["daily_trade" := daily_trade]> data_dict in
  monthly_trade ← read_csv "monthly_trade.txt" (monthly_trade_txt raw_data)
                    (MonthlyTrade ∘ fmap read_monthly);
  let data_dict := <["monthly_trade" := monthly_trade]> data_dict in
  turnover ← read_csv "turnover_monthly.txt" (turnover_monthly_txt raw_data)
               (TurnoverMonthly ∘ fmap read_turnover);
  let data_dict := <["turnover" := turnover]> data_dict in
  mret data_dict.

(** ** [create_merged_monthly_dataset] *)

Section create_merged_monthly_dataset.
Variable np_argsort : list string → list nat.

Definition create_merged_monthly_dataset (raw_data : directory)
    (data_dict : option (gmap string nat)) : M nat :=
  data_dict ← match data_dict with
              | None => load_all raw_data
              | Some d => mret d
              end;
  monthly ← getitem data_dict "monthly_trade" ≫= copy;
  turnover ← getitem data_dict "turnover" ≫= copy;
  industry ← getitem data_dict "industry" ≫= copy;
  basic ← getitem data_dict "basic_info" ≫= copy;
  monthly_merged ←
    (left ← columns monthly_rows "Trdmnt" monthly;
     right ← columns turnover_rows "ToverOsM" turnover;
     new (MonthlyMerged1 (merge_turnover left right)));
  latest_industry ←
    (rows ← columns industry_rows "Listdt" industry;
     new (IndustryInfo (latest_industry np_argsort rows)));
  monthly_merged ←
    (left ← columns merged1_rows "Stkcd" monthly_merged;
     right ← columns industry_rows "Nnindcd" latest_industry;
     new (MonthlyMerged2 (merge_industry left right)));
  monthly_merged ←
    (left ← columns merged2_rows "Stkcd" monthly_merged;
     right ← columns basic_rows "Markettype" basic;
     new (MonthlyMerged (merge_basic left right)));
  monthly_merged ←
    (rows ← columns panel_rows "Trdmnt" monthly_merged;
     new (MonthlyMerged (sort_values_Stkcd_Trdmnt rows)));
  setitem_Msmvosd_times_1000 monthly_merged;;
  mret monthly_merged.
End create_merged_monthly_dataset.

(** ** The module run as a script *)

(** [Series.nunique()]: the number of distinct values, nulls not counted. *)
Definition nunique {A} `{EqDecision A} (column : list (option A)) : nat :=
  length (remove_dups (omap id column)).

(** [Series.min()] and [Series.max()] skip the nulls; with no value left
    the result is null. *)
Definition series_min (column : list (option Z)) : option Z :=
  foldr (λ x acc, Some (from_option (Z.min x) x acc)) None (omap id column).

Definition series_max (column : list (option Z)) : option Z :=
  foldr (λ x acc, Some (from_option (Z.max x) x acc)) None (omap id column).

(** What the script prints of the panel: its first five rows, the range of
    the months, the number of securities and the number of industries. *)
Record report := mk_report {
  preview : list Panel.row;
  Trdmnt_min : option Z;
  Trdmnt_max : option Z;
  Stkcd_nunique : nat;
  Nnindcd_nunique : nat }.

Definition main (np_argsort : list string → list nat) (raw_data : directory) :
    M report :=
  data ← load_all raw_data;
  monthly_data ← create_merged_monthly_dataset np_argsort raw_data (Some data);
  rows ← columns panel_rows "Trdmnt" monthly_data;
  mret (mk_report (take 5 rows)
          (series_min (Panel.Trdmnt <$> rows))
          (series_max (Panel.Trdmnt <$> rows))
          (nunique (Panel.Stkcd <$> rows))
          (nunique (Panel.Nnindcd <$> rows))).

(** * The vocabulary of the statements *)

(** ** What a call reads and returns *)

(** The four tables the function reads from the mapping. *)
Record tables := mk_tables {
  monthly_trade : list Monthly.row;
  turnover : list Turnover.row;
  industry : list Industry.row;
  basic_info : list Basic.row }.

(** The frame a key of the mapping refers to. *)
Definition table (h : list DataFrame) (data_dict : gmap string nat)
    (key : string) : option DataFrame :=
  data_dict !! key ≫= (h !!.).

Definition inputs (h : list DataFrame) (data_dict : gmap string nat) :
    option tables :=
  m ← table h data_dict "monthly_trade" ≫= monthly_rows;
  t ← table h data_dict "turnover" ≫= turnover_rows;
  i ← table h data_dict "industry" ≫= industry_rows;
  b ← table h data_dict "basic_info" ≫= basic_rows;
  Some (mk_tables m t i b).

(** The rows of the frame a call returned. *)
Definition returned (out : result nat * list DataFrame) : result (list Panel.row) :=
  match out with
  | (Ok l, h) =>
      match h !! l ≫= panel_rows with
      | Some rows => Ok rows
      | None => Raise (KeyError "object")
      end
  | (Raise e, _) => Raise e
  end.

(** Every reference of the mapping is to an object of the store. *)
Definition dict_valid (h : list DataFrame) (d : gmap string nat) : Prop :=
  ∀ key l, d !! key = Some l → l < length h.

Section outcome.
Variable np_argsort : list string → list nat.

(** The result of a call, from the frames under the four keys it reads. *)
Definition outcome (fm ft fi fb : option DataFrame) : result (list Panel.row) :=
  match fm, ft, fi, fb with
  | None, _, _, _ => Raise (KeyError "monthly_trade")
  | Some _, None, _, _ => Raise (KeyError "turnover")
  | Some _, Some _, None, _ => Raise (KeyError "industry")
  | Some _, Some _, Some _, None => Raise (KeyError "basic_info")
  | Some dm, Some dt, Some di, Some db =>
      match monthly_rows dm, turnover_rows dt, industry_rows di, basic_rows db with
      | None, _, _, _ => Raise (KeyError "Trdmnt")
      | Some _, None, _, _ => Raise (KeyError "ToverOsM")
      | Some _, Some _, None, _ => Raise (KeyError "Listdt")
      | Some _, Some _, Some _, None => Raise (KeyError "Markettype")
      | Some m, Some t, Some i, Some b => Ok (merged_monthly np_argsort m t i b)
      end
  end.

End outcome.

(** ** The rows of the panel *)

Section joined.
Context {L R K : Type} (lkey : L → K) (rkey : R → K).

(** What a left merge pairs a left row with: a matching right row, or
    nothing when no right row matches. *)
Definition joined (right : list R) (l : L) (o : option R) : Prop :=
  match o with
  | Some r => r ∈ right ∧ rkey r = lkey l
  | None => ∀ r, r ∈ right → rkey r ≠ lkey l
  end.

End joined.

(** The row that [groupby('Stkcd').last()] holds for an identifier: none for
    a null identifier or one the frame does not list. *)
Definition industry_lookup (df : list Industry.row) (k : option string) :
    option Industry.row :=
  s ← k;
  if decide (s ∈ omap Industry.Stkcd df) then Some (group_last df s) else None.

Section panel.
Variable np_argsort : list string → list nat.

(** The panel row that a trade row yields with a turnover row and a basic
    row (or none), before the market value is rescaled. *)
Definition panel_row (industry : list Industry.row) (m : Monthly.row)
    (t : option Turnover.row) (b : option Basic.row) : Panel.row :=
  let i := industry_lookup (sort_values_Listdt np_argsort industry)
             (Monthly.Stkcd m) in
  Panel.mk m (from_option Turnover.ToverOsM nan t)
    (i ≫= Industry.Nnindcd) (i ≫= Industry.Nnindnme)
    (b ≫= Basic.Markettype) (b ≫= Basic.Listdt).

(** The merged frame before the sort and the rescaling, and the panel. *)
Definition merged_of (t : tables) : list Panel.row :=
  merged_tables np_argsort (monthly_trade t) (turnover t) (industry t)
    (basic_info t).

Definition panel_of (t : tables) : list Panel.row :=
  merged_monthly np_argsort (monthly_trade t) (turnover t) (industry t)
    (basic_info t).

(** The frames a successful call allocates, in order: the four copies,
    the three merges and the latest industry between them, and the sorted
    frame, whose market value the last statement rescales in place. *)
Definition allocated (t : tables) : list DataFrame :=
  let merged1 := merge_turnover (monthly_trade t) (turnover t) in
  let latest := latest_industry np_argsort (industry t) in
  let merged2 := merge_industry merged1 latest in
  [ MonthlyTrade (monthly_trade t);
    TurnoverMonthly (turnover t);
    IndustryInfo (industry t);
    BasicInfo (basic_info t);
    MonthlyMerged1 merged1;
    IndustryInfo latest;
    MonthlyMerged2 merged2;
    MonthlyMerged (merge_basic merged2 (basic_info t));
    MonthlyMerged
      (merged_monthly np_argsort (monthly_trade t) (turnover t)
         (industry t) (basic_info t)) ].

(** The rows of identifier [s] after [sort_values('Listdt')]. *)
Definition sorted_group (df : list Industry.row) (s : string) :
    list Industry.row :=
  filter (λ r, Industry.Stkcd r = Some s) (sort_values_Listdt np_argsort df).

End panel.

(** The trade rows a frame carries, when it has the column [Msmvosd]. *)
Definition trade_rows (df : DataFrame) : list Monthly.row :=
  match df with
  | MonthlyTrade rows => rows
  | MonthlyMerged1 rows => Merged1.trade <$> rows
  | MonthlyMerged2 rows => Merged2.trade <$> rows
  | MonthlyMerged rows => Panel.trade <$> rows
  | _ => []
  end.

(** ** The merges as one comprehension *)

(** What a left merge pairs a key with: the rows of the right frame with
    that key, in the order of the right frame, or nothing, once, when there
    is none. *)
Definition matches {R K : Type} `{EqDecision K} (rkey : R → K)
    (right : list R) (k : K) : list (option R) :=
  match filter (λ r, rkey r = k) right with
  | [] => [None]
  | rs => Some <$> rs
  end.

(** The number of rows a left row yields in a left merge. *)
Definition n_matches {R K : Type} `{EqDecision K} (rkey : R → K)
    (right : list R) (k : K) : nat :=
  length (filter (λ r, rkey r = k) right) `max` 1.

Section comprehension.
Variable np_argsort : list string → list nat.

(** The rows of the merged frame for one row of [monthly_trade]: one for
    each pair of a matching turnover row and a matching basic row, the
    turnover rows leading. *)
Definition rows_of_trade (t : tables) (m : Monthly.row) : list Panel.row :=
  matches Turnover.key (turnover t) (Monthly.key m) ≫= λ tr,
    panel_row np_argsort (industry t) m tr <$>
      matches Basic.Stkcd (basic_info t) (Monthly.Stkcd m).

End comprehension.

(** The number of rows of the panel for one row of [monthly_trade]. *)
Definition fan_out (t : tables) (m : Monthly.row) : nat :=
  n_matches Turnover.key (turnover t) (Monthly.key m) *
  n_matches Basic.Stkcd (basic_info t) (Monthly.Stkcd m).

(** ** The objects a call leaves alone *)

Section extends.
Context (h : list DataFrame).

(** A later store in which every object of [h] is what it was. *)
Definition extends (H : list DataFrame) : Prop := take (length h) H = h.

(** [m] changes no object of [h], and what it returns satisfies [Q]. *)
Definition keeps {A} (m : M A) (Q : A → Prop) : Prop :=
  ∀ H, extends H → extends (m H).2 ∧ ∀ a, (m H).1 = Ok a → Q a.

End extends.

(** ** The outcome of [load_all] *)

(** The exception a file makes [read_csv] raise, if any. *)
Definition file_error {A} (name : string) (f : file A) : option exn :=
  match f with
  | Absent => Some (FileNotFoundError name)
  | Unparsable => Some (ParserError name)
  | Parsed _ => None
  end.

(** The files are read one after the other; the first that cannot be read
    ends the call. *)
Fixpoint first_raised (errors : list (option exn)) : option exn :=
  match errors with
  | [] => None
  | Some e :: _ => Some e
  | None :: errors => first_raised errors
  end.

Definition first_error (raw_data : directory) : option exn :=
  first_raised
    [ file_error "basic_info.txt" (basic_info_txt raw_data);
      file_error "csrc2012_industry.txt" (csrc2012_industry_txt raw_data);
      file_error "daily_trade.txt" (daily_trade_txt raw_data);
      file_error "monthly_trade.txt" (monthly_trade_txt raw_data);
      file_error "turnover_monthly.txt" (turnover_monthly_txt raw_data) ].

Definition is_absent {A} (f : file A) : Prop :=
  match f with Absent => True | _ => False end.

Definition is_unparsable {A} (f : file A) : Prop :=
  match f with Unparsable => True | _ => False end.

Definition some_absent (raw_data : directory) : Prop :=
  is_absent (basic_info_txt raw_data) ∨
  is_absent (csrc2012_industry_txt raw_data) ∨
  is_absent (daily_trade_txt raw_data) ∨
  is_absent (monthly_trade_txt raw_data) ∨
  is_absent (turnover_monthly_txt raw_data).

Definition some_unparsable (raw_data : directory) : Prop :=
  is_unparsable (basic_info_txt raw_data) ∨
  is_unparsable (csrc2012_industry_txt raw_data) ∨
  is_unparsable (daily_trade_txt raw_data) ∨
  is_unparsable (monthly_trade_txt raw_data) ∨
  is_unparsable (turnover_monthly_txt raw_data).

(** The mapping [load_all] returns when the first of its frames is
    allocated at [l]. *)
Definition loaded_dict (l : nat) : gmap string nat :=
  <["turnover" := l + 4]>
    (<["monthly_trade" := l + 3]>
       (<["daily_trade" := l + 2]>
          (<["industry" := l + 1]> (<["basic_info" := l + 0]> ∅)))).

Definition loaded_frames (rb : list Raw.basic) (ri : list Raw.industry)
    (rd : list Raw.daily) (rm : list Raw.monthly) (rt : list Raw.turnover) :
    list DataFrame :=
  [ BasicInfo (read_basic <$> rb); IndustryInfo (read_industry <$> ri);
    DailyTrade (read_daily <$> rd); MonthlyTrade (read_monthly <$> rm);
    TurnoverMonthly (read_turnover <$> rt) ].

Definition loaded_tables (rb : list Raw.basic) (ri : list Raw.industry)
    (rm : list Raw.monthly) (rt : list Raw.turnover) : tables :=
  mk_tables (read_monthly <$> rm) (read_turnover <$> rt)
    (read_industry <$> ri) (read_basic <$> rb).

(** ** An [argsort] that is not stable

    [sort_values('Listdt')] leaves the order of rows of one date to numpy.
    An [argsort] that puts the later of two equal values first sorts as well
    as a stable one. *)

Definition later_first : relation nat := λ i j, j ≤ i.

Global Instance later_first_dec : RelDecision later_first.
Proof. intros i j. unfold later_first. apply _. Defined.

Definition unstable_argsort : list string → list nat := argsort_by later_first.

(** ** Some markets *)

(** A small market. *)
Module Example.
Definition monthly : list Monthly.row :=
  [ Monthly.mk (Some "600000") (Some 202301%Z) 7%float [];
    Monthly.mk (Some "000001") (Some 202302%Z) 500%float [1.5%float];
    Monthly.mk (Some "000001") (Some 202301%Z) 250%float [] ].

Definition turnover : list Turnover.row :=
  [ Turnover.mk (Some "000001") (Some 202301%Z) 0.5%float;
    Turnover.mk (Some "000001") (Some 202302%Z) 0.25%float ].

Definition industry : list Industry.row :=
  [ Industry.mk (Some "000001") (Some "C39") (Some "Electronics") (Some "2010-01-01");
    Industry.mk (Some "000001") (Some "J66") (Some "Banking") (Some "2020-01-01");
    Industry.mk (Some "000002") (Some "K70") (Some "Property") (Some "2012-05-01") ].

Definition basic : list Basic.row :=
  [ Basic.mk (Some "000001") (Some 4%Z) (Some "1991-04-03");
    Basic.mk (Some "000002") (Some 4%Z) (Some "1991-01-29") ].

Definition daily : list Daily.row :=
  [ Daily.mk (Some "000001") (Some 20230103%Z) [13.5%float] ].

Definition all : tables := mk_tables monthly turnover industry basic.

Definition store : list DataFrame :=
  [ BasicInfo basic; IndustryInfo industry; DailyTrade daily;
    MonthlyTrade monthly; TurnoverMonthly turnover ].

Definition data_dict : gmap string nat :=
  list_to_map [("basic_info", 0); ("industry", 1); ("daily_trade", 2);
               ("monthly_trade", 3); ("turnover", 4)].

(** No file is read when the caller supplies the mapping. *)
Definition raw_data : directory :=
  mk_directory Absent Absent Absent Absent Absent.
End Example.

(** The small market with other daily trades. *)
Definition other_daily_store : list DataFrame :=
  <[2 := DailyTrade []]> Example.store.

(** The turnover table lists one month of one security twice. *)
Module Duplicates.
Definition monthly : list Monthly.row :=
  [ Monthly.mk (Some "A1") (Some 202103%Z) 500%float [] ].

Definition turnover : list Turnover.row :=
  [ Turnover.mk (Some "A1") (Some 202103%Z) 0.5%float;
    Turnover.mk (Some "A1") (Some 202103%Z) 0.75%float ].

Definition store : list DataFrame :=
  [ BasicInfo []; IndustryInfo []; DailyTrade [];
    MonthlyTrade monthly; TurnoverMonthly turnover ].
End Duplicates.

(** The latest of two industry rows has no name. *)
Module Unnamed.
Definition industry : list Industry.row :=
  [ Industry.mk (Some "A1") (Some "10") (Some "Mining") (Some "2010-01-01");
    Industry.mk (Some "A1") (Some "20") None (Some "2020-01-01") ].

Definition store : list DataFrame :=
  [ BasicInfo []; IndustryInfo industry; DailyTrade [];
    MonthlyTrade [Monthly.mk (Some "A1") (Some 202103%Z) 500%float []];
    TurnoverMonthly [] ].
End Unnamed.

(** Two industry rows of one date, the second without a name. *)
Module Tied.
Definition industry : list Industry.row :=
  [ Industry.mk (Some "A1") (Some "10") (Some "Mining") (Some "2020-01-01");
    Industry.mk (Some "A1") (Some "20") None (Some "2020-01-01") ].

Definition store : list DataFrame :=
  [ BasicInfo []; IndustryInfo industry; DailyTrade [];
    MonthlyTrade [Monthly.mk (Some "A1") (Some 202103%Z) 500%float []];
    TurnoverMonthly [] ].
End Tied.

(** Two industry rows of one date, both complete. *)
Module TiedNamed.
Definition industry : list Industry.row :=
  [ Industry.mk (Some "A1") (Some "10") (Some "Mining") (Some "2020-01-01");
    Industry.mk (Some "A1") (Some "20") (Some "Banking") (Some "2020-01-01") ].

Definition store : list DataFrame :=
  [ BasicInfo []; IndustryInfo industry; DailyTrade [];
    MonthlyTrade [Monthly.mk (Some "A1") (Some 202103%Z) 500%float []];
    TurnoverMonthly [] ].
End TiedNamed.

(** The small market, with two industry rows of one date for a security. *)
Module Reclassified.
Definition before : list Industry.row :=
  [ Industry.mk (Some "000001") (Some "C39") (Some "Electronics") (Some "2020-01-01") ].

Definition latest : Industry.row :=
  Industry.mk (Some "000001") (Some "J66") (Some "Banking") (Some "2020-01-01").

Definition after : list Industry.row :=
  [ Industry.mk (Some "000001") (Some "A01") (Some "Farming") (Some "2010-01-01");
    Industry.mk (Some "000002") (Some "K70") (Some "Property") (Some "2012-05-01") ].

Definition all : tables :=
  mk_tables Example.monthly Example.turnover (before ++ latest :: after)
    Example.basic.

Definition store : list DataFrame :=
  [ BasicInfo Example.basic; IndustryInfo (before ++ latest :: after);
    DailyTrade Example.daily; MonthlyTrade Example.monthly;
    TurnoverMonthly Example.turnover ].
End Reclassified.

(** A directory whose monthly trades list the identifier [NA]. *)
Definition na_directory : directory :=
  mk_directory (Parsed []) (Parsed []) (Parsed [])
    (Parsed [Raw.mk_monthly "NA" (Some 202301%Z) 7%float []]) (Parsed []).

(** A directory whose monthly trades list a market value of sixteen
    digits, an integer. *)
Definition large_value_directory : directory :=
  mk_directory (Parsed []) (Parsed []) (Parsed [])
    (Parsed [Raw.mk_monthly "A1" (Some 202103%Z) (Int64 9223372036854776) []])
    (Parsed []).

(** A row of the monthly trades and rows of the other tables without an
    identifier, beside a security with one. *)
Module Unidentified.
Definition monthly : list Monthly.row :=
  [ Monthly.mk None (Some 202301%Z) 7%float [];
    Monthly.mk (Some "A1") (Some 202103%Z) 500%float [] ].

Definition industry : list Industry.row :=
  [ Industry.mk None (Some "10") (Some "Mining") (Some "2010-01-01");
    Industry.mk (Some "A1") (Some "20") (Some "Banking") (Some "2020-01-01") ].

Definition basic : list Basic.row :=
  [ Basic.mk None (Some 1%Z) (Some "2000-01-01") ].

Definition all : tables := mk_tables monthly [] industry basic.

Definition store : list DataFrame :=
  [ BasicInfo basic; IndustryInfo industry; DailyTrade [];
    MonthlyTrade monthly; TurnoverMonthly [] ].
End Unidentified.

(** The monthly trades of the small market and nothing else. *)
Definition trades_only_store : list DataFrame :=
  [ BasicInfo []; IndustryInfo []; DailyTrade [];
    MonthlyTrade Example.monthly; TurnoverMonthly [] ].

(** A mapping without the turnover table. *)
Definition no_turnover_dict : gmap string nat :=
  list_to_map [("basic_info", 0); ("industry", 1); ("daily_trade", 2);
               ("monthly_trade", 3)].

(** * Proofs *)

(** ** The orders *)

Global Instance na_last_refl {A} (R : relation A) `{!Reflexive R} :
  Reflexive (na_last R).
Proof. intros [a|]; simpl; done. Qed.

Global Instance na_last_trans {A} (R : relation A) `{!Transitive R} :
  Transitive (na_last R).
Proof. intros [a|] [b|] [c|]; simpl; try done. apply transitivity. Qed.

Global Instance na_last_total {A} (R : relation A) `{!Total R} :
  Total (na_last R).
Proof. intros [a|] [b|]; simpl; auto. Qed.

Global Instance na_last_antisymm {A} (R : relation A) `{!AntiSymm (=) R} :
  AntiSymm (=) (na_last R).
Proof.
  intros [a|] [b|]; simpl; try done.
  intros H1 H2. f_equal. by apply (anti_symm R).
Qed.

Global Instance lex_le_refl {A B} (R1 : relation A) (R2 : relation B)
  `{!Reflexive R1, !Reflexive R2} : Reflexive (lex_le R1 R2).
Proof. intros k. split; done. Qed.

Global Instance lex_le_total {A B} (R1 : relation A) (R2 : relation B)
  `{!Total R1, !Total R2, !RelDecision R1} : Total (lex_le R1 R2).
Proof.
  intros k1 k2. unfold lex_le.
  destruct (decide (R1 k1.1 k2.1)) as [H12|H12];
    destruct (decide (R1 k2.1 k1.1)) as [H21|H21].
  - destruct (total R2 k1.2 k2.2); [left|right]; done.
  - left. done.
  - right. done.
  - destruct (total R1 k1.1 k2.1); done.
Qed.

Global Instance lex_le_trans {A B} (R1 : relation A) (R2 : relation B)
  `{!Transitive R1, !Transitive R2} : Transitive (lex_le R1 R2).
Proof.
  intros k1 k2 k3 [H12 H12'] [H23 H23']. split.
  - by trans k2.1.
  - intros H31. trans k2.2.
    + apply H12'. by trans k3.1.
    + apply H23'. by trans k1.1.
Qed.

Global Instance on_key_refl {A K} (key : A → K) (R : relation K)
  `{!Reflexive R} : Reflexive (on_key key R).
Proof. intros x. unfold on_key. done. Qed.

Global Instance on_key_total {A K} (key : A → K) (R : relation K)
  `{!Total R} : Total (on_key key R).
Proof. intros x y. apply (total R). Qed.

Global Instance on_key_trans {A K} (key : A → K) (R : relation K)
  `{!Transitive R} : Transitive (on_key key R).
Proof. intros x y z. unfold on_key. apply transitivity. Qed.

Global Instance later_first_total : Total later_first.
Proof. intros i j. unfold later_first. lia. Qed.

Global Instance later_first_trans : Transitive later_first.
Proof. intros i j k. unfold later_first. lia. Qed.

(** ** The stable sort sorts, and is stable *)

Section stable_sort_correct.
Context {A : Type} (R : relation A) `{!RelDecision R}.

Lemma insert_sorted_Permutation x l : insert_sorted R x l ≡ₚ x :: l.
Proof.
  induction l as [|y l IH]; simpl; [done|].
  case_decide; [done|]. rewrite IH. apply Permutation_swap.
Qed.

Lemma stable_sort_Permutation l : stable_sort R l ≡ₚ l.
Proof.
  induction l as [|x l IH]; simpl; [done|].
  by rewrite insert_sorted_Permutation, IH.
Qed.

Lemma stable_sort_length l : length (stable_sort R l) = length l.
Proof. by rewrite stable_sort_Permutation. Qed.

Lemma insert_sorted_Sorted `{!Total R} x l :
  Sorted R l → Sorted R (insert_sorted R x l).
Proof.
  induction l as [|y l IH]; simpl; intros Hs.
  - by repeat constructor.
  - case_decide as Hxy.
    + constructor; [done|]. by constructor.
    + apply Sorted_inv in Hs as [Hs Hhd]. constructor; [by apply IH|].
      assert (R y x) by (by destruct (total R x y)).
      destruct l as [|z l]; simpl; [by constructor|].
      case_decide; constructor; [done|]. by apply HdRel_inv in Hhd.
Qed.

Lemma stable_sort_Sorted `{!Total R} l : Sorted R (stable_sort R l).
Proof.
  induction l as [|x l IH]; simpl; [constructor|].
  by apply insert_sorted_Sorted.
Qed.

Lemma stable_sort_StronglySorted `{!Total R, !Transitive R} l :
  StronglySorted R (stable_sort R l).
Proof. apply Sorted_StronglySorted; [done|]. apply stable_sort_Sorted. Qed.

(** Stability: rows that the order does not tell apart keep the relative
    order they had before the sort. *)
Lemma insert_sorted_filter (P : A → Prop) `{!∀ x, Decision (P x)} x l :
  (∀ y z, P y → P z → R y z) →
  filter P (insert_sorted R x l) = filter P (x :: l).
Proof.
  intros HP. induction l as [|y l IH]; simpl; [done|].
  case_decide as Hxy; [done|].
  rewrite filter_cons, IH, !filter_cons.
  destruct (decide (P y)) as [Hy|Hy]; [|done].
  destruct (decide (P x)) as [Hx|Hx]; [|done].
  destruct Hxy. by apply HP.
Qed.

Lemma stable_sort_filter (P : A → Prop) `{!∀ x, Decision (P x)} l :
  (∀ y z, P y → P z → R y z) →
  filter P (stable_sort R l) = filter P l.
Proof.
  intros HP. induction l as [|x l IH]; simpl; [done|].
  rewrite insert_sorted_filter by done. by rewrite !filter_cons, IH.
Qed.

End stable_sort_correct.

(** The end-to-end scenario of the specification. *)
Example end_to_end :
  merged_monthly stable_argsort
    [Monthly.mk (Some "A1") (Some 202103%Z) (Int64 500) []]
    [Turnover.mk (Some "A1") (Some 202103%Z) 0.05%float]
    [Industry.mk (Some "A1") (Some "10") (Some "Old") (Some "2005-01-01");
     Industry.mk (Some "A1") (Some "20") (Some "New") (Some "2015-01-01")]
    [Basic.mk (Some "A1") (Some 1%Z) (Some "2000-01-01")]
  = [Panel.mk (Monthly.mk (Some "A1") (Some 202103%Z) (Int64 500000) [])
       0.05%float (Some "20") (Some "New") (Some 1%Z) (Some "2000-01-01")].
Proof. vm_compute. reflexivity. Qed.

(** ** Left merges *)

Lemma filter_none {A} (P : A → Prop) `{!∀ x, Decision (P x)} (l : list A) :
  (∀ x, x ∈ l → ¬ P x) → filter P l = [].
Proof.
  induction l as [|x l IH]; intros HP; [done|].
  rewrite filter_cons_False by (apply HP; left).
  apply IH. intros y Hy. apply HP. by right.
Qed.

Section merge_left.
Context {L R K Out : Type} `{EqDecision K}.
Context (lkey : L → K) (rkey : R → K) (join : L → option R → Out).

Lemma elem_of_merge_row right l x :
  x ∈ merge_row lkey rkey join right l ↔ ∃ o, joined lkey rkey right l o ∧ x = join l o.
Proof.
  unfold merge_row. split.
  - intros Hx. destruct (filter _ right) as [|r rs] eqn:Hf.
    + apply list_elem_of_singleton in Hx as ->. exists None.
      split; [|done]. intros r Hr Hk.
      by apply (filter_nil_not_elem_of _ _ r Hf).
    + apply list_elem_of_fmap in Hx as (r' & -> & Hr').
      rewrite <-Hf in Hr'. apply list_elem_of_filter in Hr' as [??].
      by exists (Some r').
  - intros (o & Ho & ->). destruct o as [r|]; simpl in Ho.
    + destruct Ho as [Hr Hk].
      assert (r ∈ filter (λ r, rkey r = lkey l) right) as Hin
        by (by apply list_elem_of_filter).
      destruct (filter _ right) as [|r0 rs]; [by apply elem_of_nil in Hin|].
      apply list_elem_of_fmap. by exists r.
    + rewrite filter_none; [apply list_elem_of_here|done].
Qed.

Lemma elem_of_merge_left left right x :
  x ∈ merge_left lkey rkey join left right ↔
  ∃ l o, l ∈ left ∧ joined lkey rkey right l o ∧ x = join l o.
Proof.
  unfold merge_left. rewrite list_elem_of_bind.
  setoid_rewrite elem_of_merge_row. split.
  - intros (l & (o & Ho & ->) & Hl). by exists l, o.
  - intros (l & o & Hl & Ho & ->). exists l. split; [by exists o|done].
Qed.

(** Every left row is paired with something. *)
Lemma joined_exists right l : ∃ o, joined lkey rkey right l o.
Proof.
  destruct (filter (λ r, rkey r = lkey l) right) as [|r rs] eqn:Hf.
  - exists None. intros r Hr Hk.
    by apply (filter_nil_not_elem_of _ _ r Hf).
  - exists (Some r).
    assert (r ∈ filter (λ r, rkey r = lkey l) right) as Hin
      by (rewrite Hf; apply list_elem_of_here).
    apply list_elem_of_filter in Hin as [??]. by split.
Qed.

Lemma merge_row_length_ge right l :
  1 ≤ length (merge_row lkey rkey join right l).
Proof. unfold merge_row. destruct (filter _ right); simpl; lia. Qed.

(** A left merge never drops a left row. *)
Lemma merge_left_length_ge left right :
  length left ≤ length (merge_left lkey rkey join left right).
Proof.
  unfold merge_left. induction left as [|l left IH]; [done|].
  rewrite bind_cons, length_app. simpl.
  pose proof (merge_row_length_ge right l). lia.
Qed.

Lemma filter_key_NoDup right k :
  NoDup (rkey <$> right) → length (filter (λ r, rkey r = k) right) ≤ 1.
Proof.
  induction right as [|r right IH]; simpl; [lia|].
  rewrite NoDup_cons. intros [Hr Hnd]. rewrite filter_cons.
  case_decide as Hk; simpl; [|by apply IH].
  assert (filter (λ r, rkey r = k) right = []) as ->; [|simpl; lia].
  apply filter_none. intros r' Hr' Hk'.
  apply Hr, list_elem_of_fmap. exists r'. split; [congruence|done].
Qed.

Lemma merge_row_unique right l :
  NoDup (rkey <$> right) → ∃ o, merge_row lkey rkey join right l = [join l o].
Proof.
  intros Hnd. unfold merge_row.
  pose proof (filter_key_NoDup right (lkey l) Hnd) as Hlen.
  destruct (filter _ right) as [|r [|r' rs]]; simpl in *; [by eexists..|lia].
Qed.

(** With unique keys on the right, it yields one row per left row, in the
    order of the left frame. *)
Lemma merge_left_unique (f : Out → L) left right :
  NoDup (rkey <$> right) → (∀ l o, f (join l o) = l) →
  f <$> merge_left lkey rkey join left right = left.
Proof.
  intros Hnd Hf. unfold merge_left.
  induction left as [|l left IH]; [done|].
  rewrite bind_cons, fmap_app, IH.
  destruct (merge_row_unique right l Hnd) as [o ->]. simpl. by rewrite Hf.
Qed.

Lemma merge_left_length left right :
  NoDup (rkey <$> right) →
  length (merge_left lkey rkey join left right) = length left.
Proof.
  intros Hnd. unfold merge_left.
  induction left as [|l left IH]; [done|].
  rewrite bind_cons, length_app, IH.
  by destruct (merge_row_unique right l Hnd) as [o ->].
Qed.

End merge_left.

Lemma elem_of_fmap_merge_left {L R K Out T} `{EqDecision K}
    (lkey : L → K) (rkey : R → K) (join : L → option R → Out)
    (f : Out → T) (g : L → T) left right x :
  (∀ l o, f (join l o) = g l) →
  x ∈ f <$> merge_left lkey rkey join left right → x ∈ g <$> left.
Proof.
  intros Hf (y & -> & Hy)%list_elem_of_fmap.
  apply elem_of_merge_left in Hy as (l & o & Hl & _ & ->).
  rewrite Hf. apply list_elem_of_fmap. by exists l.
Qed.

(** ** Taking rows by position *)

Lemma take_rows_seq {A} (l1 l2 : list A) :
  take_rows (l1 ++ l2) (seq (length l1) (length l2)) = l2.
Proof.
  unfold take_rows. revert l1.
  induction l2 as [|x l2 IH]; intros l1; simpl; [done|].
  rewrite list_lookup_middle by done. simpl. f_equal.
  specialize (IH (l1 ++ [x])).
  rewrite length_app, <-app_assoc in IH. simpl in IH.
  by rewrite Nat.add_1_r in IH.
Qed.

Lemma take_rows_Permutation {A} (df : list A) (indexer : list nat) :
  indexer ≡ₚ seq 0 (length df) → take_rows df indexer ≡ₚ df.
Proof.
  intros Hp. unfold take_rows. rewrite Hp.
  by rewrite <-(take_rows_seq [] df) at 2.
Qed.

Lemma lookup_omap_total {A B} (f : A → option B) (l : list A) (i : nat) :
  Forall (is_Some ∘ f) l → omap f l !! i = l !! i ≫= f.
Proof.
  intros Hl. revert i. induction Hl as [|x l [y Hy] Hl IH]; intros i; [done|].
  simpl in *. rewrite Hy. destruct i as [|i]; simpl; [done|]. apply IH.
Qed.

Lemma take_rows_omap {A B} (f : A → option B) (df : list A) (indexer : list nat) :
  Forall (is_Some ∘ f) df →
  take_rows (omap f df) indexer = omap f (take_rows df indexer).
Proof.
  intros Hdf. unfold take_rows.
  induction indexer as [|i indexer IH]; [done|].
  cbn. rewrite lookup_omap_total by done.
  destruct (df !! i) as [x|]; cbn; [|exact IH].
  destruct (f x); cbn; [f_equal|]; exact IH.
Qed.

Lemma elem_of_take_rows {A} (df : list A) (indexer : list nat) (x : A) :
  x ∈ take_rows df indexer → x ∈ df.
Proof.
  unfold take_rows. rewrite list_elem_of_omap. intros (i & _ & Hi).
  by eapply list_elem_of_lookup_2.
Qed.

(** ** Sorted lists *)

Lemma StronglySorted_filter {A} (R : relation A) (P : A → Prop)
    `{!∀ x, Decision (P x)} (l : list A) :
  StronglySorted R l → StronglySorted R (filter P l).
Proof.
  induction 1 as [|x l Hl IH Hx]; [constructor|].
  rewrite filter_cons. case_decide; [|done].
  constructor; [done|].
  apply Forall_forall. intros y [_ Hy]%list_elem_of_filter.
  by eapply Forall_forall in Hx.
Qed.

Lemma StronglySorted_last {A} (R : relation A) `{!Reflexive R}
    (l : list A) (x y : A) :
  StronglySorted R l → last l = Some y → x ∈ l → R x y.
Proof.
  intros Hl [l' ->]%last_Some Hx.
  apply elem_of_app in Hx as [Hx|Hx].
  - eapply StronglySorted_app_1_elem_of; [done..|left].
  - by apply list_elem_of_singleton in Hx as ->.
Qed.

Lemma StronglySorted_omap {A B} (R : relation B) (f : A → option B) (l : list A) :
  Forall (is_Some ∘ f) l → StronglySorted R (omap f l) →
  StronglySorted (on_key f (na_last R)) l.
Proof.
  induction 1 as [|x l [y Hy] Hl IH]; simpl; [constructor|].
  rewrite Hy. simpl. intros [Hs Hx]%StronglySorted_inv.
  constructor; [by apply IH|].
  apply Forall_forall. intros z Hz. unfold on_key. rewrite Hy.
  eapply Forall_forall in Hl as [w Hw]; [|done]. simpl in Hw. rewrite Hw. simpl.
  eapply Forall_forall in Hx; [done|].
  apply list_elem_of_omap. by exists z.
Qed.

Lemma StronglySorted_all_na {A B} (R : relation B) (f : A → option B) (l : list A) :
  Forall (λ x, f x = None) l → StronglySorted (on_key f (na_last R)) l.
Proof.
  induction 1 as [|x l Hx Hl IH]; constructor; [done|].
  eapply Forall_impl; [done|]. intros y Hy. unfold on_key.
  rewrite Hx, Hy. done.
Qed.

Lemma StronglySorted_fmap_elem_of {A B} (R1 : relation A) (R2 : relation B)
    (f : A → B) (l : list A) :
  (∀ x y, x ∈ l → y ∈ l → R1 x y → R2 (f x) (f y)) →
  StronglySorted R1 l → StronglySorted R2 (f <$> l).
Proof.
  intros Hf Hl. induction Hl as [|x l Hl IH Hx]; [constructor|].
  rewrite fmap_cons. constructor.
  - apply IH. intros y z Hy Hz. apply Hf; by right.
  - apply Forall_fmap, Forall_forall. intros y Hy. simpl.
    apply Hf; [left|by right|]. by eapply Forall_forall in Hx.
Qed.

Lemma filter_fmap {A B} (f : A → B) (P : B → Prop) `{!∀ y, Decision (P y)}
    (l : list A) :
  filter P (f <$> l) = f <$> filter (P ∘ f) l.
Proof.
  induction l as [|x l IH]; [done|].
  rewrite fmap_cons, !filter_cons, IH. simpl. by case_decide.
Qed.

Lemma omap_length_total {A B} (f : A → option B) (l : list A) :
  Forall (is_Some ∘ f) l → length (omap f l) = length l.
Proof.
  induction 1 as [|x l [y Hy] Hl IH]; [done|].
  cbn in Hy. cbn. rewrite Hy. cbn. by rewrite IH.
Qed.

Lemma last_valid_last {A} (column : list (option A)) (x : A) :
  last column = Some (Some x) → last_valid column = Some x.
Proof.
  intros [l ->]%last_Some. unfold last_valid.
  rewrite omap_app. simpl. apply last_snoc.
Qed.

Lemma last_valid_elem_of {A} (column : list (option A)) (x : A) :
  last_valid column = Some x → Some x ∈ column.
Proof.
  unfold last_valid. intros Hx%last_Some_elem_of.
  apply list_elem_of_omap in Hx as (o & Ho & Hx). simpl in Hx. by subst.
Qed.

Lemma last_filter_omap {A B} (f : A → option B) (P : B → Prop)
    `{!∀ y, Decision (P y)} (l : list A) (y : B) :
  last (filter P (omap f l)) = Some y →
  ∃ l1 x l2, l = l1 ++ x :: l2 ∧ f x = Some y ∧ P y ∧
             ∀ x' y', x' ∈ l2 → f x' = Some y' → ¬ P y'.
Proof.
  induction l as [|x l IH] using rev_ind; [done|].
  rewrite omap_app, filter_app. cbn.
  destruct (f x) as [y'|] eqn:Hx; cbn.
  - case_decide as HP.
    + rewrite last_snoc. intros [= ->]. exists l, x, [].
      split_and!; [done..|]. by intros ?? ?%elem_of_nil.
    + rewrite app_nil_r. intros (l1 & x0 & l2 & -> & ? & ? & Hl2)%IH.
      exists l1, x0, (l2 ++ [x]). rewrite <-app_assoc. split_and!; [done..|].
      intros x' z [?|Hx']%elem_of_app; [by eauto|].
      apply list_elem_of_singleton in Hx' as ->. intros ?. by simplify_eq.
  - rewrite app_nil_r.
    intros (l1 & x0 & l2 & -> & ? & ? & Hl2)%IH.
    exists l1, x0, (l2 ++ [x]). rewrite <-app_assoc. split_and!; [done..|].
    intros x' z [?|Hx']%elem_of_app; [by eauto|].
    apply list_elem_of_singleton in Hx' as ->. intros ?. by simplify_eq.
Qed.

Lemma elem_of_zip_seq {A} (ks : list A) (start : nat) k i :
  (k, i) ∈ zip ks (seq start (length ks)) → ks !! (i - start) = Some k ∧ start ≤ i.
Proof.
  revert start. induction ks as [|k' ks IH]; intros start; simpl.
  - by intros ?%elem_of_nil.
  - intros [[= -> ->]|Hin]%elem_of_cons.
    + by rewrite Nat.sub_diag.
    + apply IH in Hin as [Hk Hi]. split; [|lia].
      replace (i - start) with (S (i - S start)) by lia. done.
Qed.

(** ** Some [argsort]s *)

Section argsort_by.
Context (ties : relation nat) `{!RelDecision ties, !Total ties, !Transitive ties}.
Context (ks : list string).

Let pairs := stable_sort (lex_le String.le ties) (zip ks (seq 0 (length ks))).

Lemma elem_of_pairs k i : (k, i) ∈ pairs → ks !! i = Some k.
Proof.
  unfold pairs. rewrite stable_sort_Permutation.
  intros [Hk _]%elem_of_zip_seq. by rewrite Nat.sub_0_r in Hk.
Qed.

Lemma argsort_by_Permutation : argsort_by ties ks ≡ₚ seq 0 (length ks).
Proof.
  unfold argsort_by. rewrite stable_sort_Permutation.
  rewrite snd_zip; [done|]. by rewrite length_seq.
Qed.

Lemma take_rows_argsort_by : take_rows ks (argsort_by ties ks) = pairs.*1.
Proof.
  unfold argsort_by, take_rows. fold pairs.
  pose proof elem_of_pairs as Hp. revert Hp.
  induction pairs as [|[k i] l IH]; intros Hp; [done|].
  cbn. rewrite (Hp k i) by left. cbn. f_equal.
  apply IH. intros k' i' ?. apply Hp. by right.
Qed.

Lemma argsort_by_sorted :
  StronglySorted String.le (take_rows ks (argsort_by ties ks)).
Proof.
  rewrite take_rows_argsort_by.
  apply (StronglySorted_fmap_elem_of (lex_le String.le ties)).
  - by intros [a i] [b j] _ _ [? _].
  - unfold pairs. apply stable_sort_StronglySorted; apply _.
Qed.

Lemma argsort_by_ties :
  StronglySorted
    (λ i j, ∀ a b, ks !! i = Some a → ks !! j = Some b →
                   lex_le String.le ties (a, i) (b, j))
    (argsort_by ties ks).
Proof.
  unfold argsort_by. fold pairs.
  apply (StronglySorted_fmap_elem_of (lex_le String.le ties)).
  - intros [a i] [b j] Hi%elem_of_pairs Hj%elem_of_pairs Hle a' b'. simpl.
    rewrite Hi, Hj. by intros [= <-] [= <-].
  - unfold pairs. apply stable_sort_StronglySorted; apply _.
Qed.

End argsort_by.

Lemma argsort_by_sorts (ties : relation nat)
    `{!RelDecision ties, !Total ties, !Transitive ties} :
  argsort_sorts (argsort_by ties).
Proof.
  intros ks. split; [by apply argsort_by_Permutation|by apply argsort_by_sorted].
Qed.

Lemma stable_argsort_sorts : argsort_sorts stable_argsort.
Proof. apply argsort_by_sorts; apply _. Qed.

Lemma stable_argsort_stable : argsort_stable stable_argsort.
Proof. intros ks. apply argsort_by_ties; apply _. Qed.

Lemma unstable_argsort_sorts : argsort_sorts unstable_argsort.
Proof. apply argsort_by_sorts; apply _. Qed.

(** ** [sort_values('Listdt')] *)

Lemma elem_of_sort_values_Listdt np_argsort df r :
  r ∈ sort_values_Listdt np_argsort df → r ∈ df.
Proof.
  unfold sort_values_Listdt.
  intros [Hr%elem_of_take_rows|Hr]%elem_of_app;
    by apply list_elem_of_filter in Hr as [_ ?].
Qed.

Section sort_values_Listdt.
Variable np_argsort : list string → list nat.
Hypothesis np_argsort_sorts : argsort_sorts np_argsort.

Lemma non_nans_Listdt (df : list Industry.row) :
  Forall (is_Some ∘ Industry.Listdt)
    (filter (λ r, is_Some (Industry.Listdt r)) df).
Proof. apply Forall_forall. by intros r [? _]%list_elem_of_filter. Qed.

(** [sort_values] reorders the rows, it neither drops nor adds one. *)
Lemma sort_values_Listdt_Permutation df : sort_values_Listdt np_argsort df ≡ₚ df.
Proof.
  unfold sort_values_Listdt.
  rewrite take_rows_Permutation.
  - rewrite <-(filter_app_complement (λ r, is_Some (Industry.Listdt r)) df) at 3.
    f_equiv. apply reflexive_eq, list_filter_iff. intros r.
    by rewrite eq_None_not_Some.
  - destruct (np_argsort_sorts
      (omap Industry.Listdt (filter (λ r, is_Some (Industry.Listdt r)) df)))
      as [Hp _].
    by rewrite Hp, omap_length_total by apply non_nans_Listdt.
Qed.

(** The rows come out in the order of [Listdt], nulls last. *)
Lemma sort_values_Listdt_sorted df :
  StronglySorted (on_key Industry.Listdt (na_last String.le))
    (sort_values_Listdt np_argsort df).
Proof.
  unfold sort_values_Listdt.
  set (non_nans := filter (λ r, is_Some (Industry.Listdt r)) df).
  apply StronglySorted_app_2.
  - intros r1 r2 _ [Hr2 _]%list_elem_of_filter. unfold on_key.
    rewrite Hr2. by destruct (Industry.Listdt r1).
  - destruct (np_argsort_sorts (omap Industry.Listdt non_nans)) as [_ Hs].
    rewrite take_rows_omap in Hs by apply non_nans_Listdt.
    apply StronglySorted_omap; [|done].
    apply Forall_forall. intros r Hr%elem_of_take_rows.
    by apply list_elem_of_filter in Hr as [? _].
  - apply StronglySorted_all_na, Forall_forall.
    by intros r [? _]%list_elem_of_filter.
Qed.

End sort_values_Listdt.

(** ** The latest industry of an identifier *)

Lemma elem_of_groupby_Stkcd_last df r :
  r ∈ groupby_Stkcd_last df ↔
  ∃ s, s ∈ omap Industry.Stkcd df ∧ r = group_last df s.
Proof.
  unfold groupby_Stkcd_last. rewrite list_elem_of_fmap.
  setoid_rewrite stable_sort_Permutation.
  setoid_rewrite elem_of_remove_dups.
  split; intros (s & ? & ?); by exists s.
Qed.

(** One row per identifier. *)
Lemma groupby_Stkcd_last_NoDup df :
  NoDup (Industry.Stkcd <$> groupby_Stkcd_last df).
Proof.
  unfold groupby_Stkcd_last. rewrite <-list_fmap_compose.
  apply (NoDup_fmap_2 Some).
  rewrite stable_sort_Permutation. apply NoDup_remove_dups.
Qed.

Lemma joined_groupby {L} (lkey : L → option string) df l i :
  joined lkey Industry.Stkcd (groupby_Stkcd_last df) l i ↔
  i = industry_lookup df (lkey l).
Proof.
  unfold industry_lookup. destruct i as [r|]; simpl.
  - rewrite elem_of_groupby_Stkcd_last. split.
    + intros [(s & Hs & ->) Hk]. simpl in Hk. rewrite <-Hk. simpl.
      by rewrite decide_True.
    + destruct (lkey l) as [s|]; simpl; [|done].
      case_decide; [|done]. intros [= ->]. split; [by exists s|done].
  - split.
    + intros Hno. destruct (lkey l) as [s|]; simpl; [|done].
      case_decide as Hs; [|done].
      destruct (Hno (group_last df s)); [|done].
      apply elem_of_groupby_Stkcd_last. by exists s.
    + intros Hi r (s & Hs & ->)%elem_of_groupby_Stkcd_last. simpl.
      intros Hk. rewrite <-Hk in Hi. simpl in Hi.
      by rewrite decide_True in Hi.
Qed.

Section latest_row.
Variable np_argsort : list string → list nat.
Hypothesis np_argsort_sorts : argsort_sorts np_argsort.
Context (df : list Industry.row) (s : string).

Lemma elem_of_sorted_group r :
  r ∈ (sorted_group np_argsort df s) ↔ r ∈ df ∧ Industry.Stkcd r = Some s.
Proof.
  unfold sorted_group.
  rewrite list_elem_of_filter, sort_values_Listdt_Permutation by done.
  split; intros [??]; by split.
Qed.

(** One row of the identifier is later than all its others: it is the
    last of the group. *)
Lemma sorted_group_last_max r0 d0 :
  r0 ∈ df → Industry.Stkcd r0 = Some s → Industry.Listdt r0 = Some d0 →
  (∀ r, r ∈ df → Industry.Stkcd r = Some s →
        r = r0 ∨ (na_last String.le (Industry.Listdt r) (Some d0) ∧
                  Industry.Listdt r ≠ Some d0)) →
  last (sorted_group np_argsort df s) = Some r0.
Proof.
  intros Hr0 Hs Hd0 Hmax.
  assert (r0 ∈ (sorted_group np_argsort df s)) as Hin by (by apply elem_of_sorted_group).
  destruct (last (sorted_group np_argsort df s)) as [rl|] eqn:Hlast;
    [|apply last_None in Hlast; rewrite Hlast in Hin;
      by apply elem_of_nil in Hin].
  pose proof (last_Some_elem_of _ _ Hlast) as [Hrl Hsl]%elem_of_sorted_group.
  assert (on_key Industry.Listdt (na_last String.le) r0 rl) as Hle.
  { apply (StronglySorted_last _ (sorted_group np_argsort df s)); [|done..].
    apply StronglySorted_filter. by apply sort_values_Listdt_sorted. }
  unfold on_key in Hle. rewrite Hd0 in Hle.
  destruct (Hmax rl Hrl Hsl) as [->|[Hle' Hne]]; [done|].
  destruct Hne. by apply (anti_symm (na_last String.le)).
Qed.

(** What the merge finds for the identifier: column by column the last
    non-null entry of the group. *)
Lemma industry_lookup_sorted_group r :
  r ∈ df → Industry.Stkcd r = Some s →
  industry_lookup (sort_values_Listdt np_argsort df) (Some s)
  = Some (Industry.mk (Some s)
            (last_valid (Industry.Nnindcd <$> (sorted_group np_argsort df s)))
            (last_valid (Industry.Nnindnme <$> (sorted_group np_argsort df s)))
            (last_valid (Industry.Listdt <$> (sorted_group np_argsort df s)))).
Proof.
  intros Hr Hs. unfold industry_lookup. simpl.
  rewrite decide_True; [done|].
  apply list_elem_of_omap. exists r. split; [|done].
  by rewrite sort_values_Listdt_Permutation.
Qed.

(** When the last row of the group has a code and a name, these are the
    ones the merge finds. *)
Lemma industry_lookup_last r0 c n :
  last (sorted_group np_argsort df s) = Some r0 →
  Industry.Nnindcd r0 = Some c → Industry.Nnindnme r0 = Some n →
  ∃ i, industry_lookup (sort_values_Listdt np_argsort df) (Some s) = Some i ∧
       Industry.Nnindcd i = Some c ∧ Industry.Nnindnme i = Some n.
Proof.
  intros Hlast Hc Hn.
  pose proof (last_Some_elem_of _ _ Hlast) as [Hr0 Hs]%elem_of_sorted_group.
  eexists. split; [by eapply industry_lookup_sorted_group|]. simpl.
  split; apply last_valid_last; rewrite fmap_last, Hlast; simpl; congruence.
Qed.

End latest_row.

Section latest_row_stable.
Variable np_argsort : list string → list nat.
Hypothesis np_argsort_sorts : argsort_sorts np_argsort.
Hypothesis np_argsort_stable : argsort_stable np_argsort.

(** Several rows of the identifier share its latest date: with a stable
    [argsort] the last of the group is the one that comes last in the
    frame. *)
Lemma sorted_group_last_tie (df before after : list Industry.row) s r0 d0 :
  df = before ++ r0 :: after →
  Industry.Stkcd r0 = Some s → Industry.Listdt r0 = Some d0 →
  (∀ r, r ∈ df → Industry.Stkcd r = Some s →
        na_last String.le (Industry.Listdt r) (Some d0)) →
  (∀ r, r ∈ after → Industry.Stkcd r = Some s →
        Industry.Listdt r ≠ Some d0) →
  last (sorted_group np_argsort df s) = Some r0.
Proof.
  intros Hdf Hs Hd0 Hmax Hafter.
  assert (r0 ∈ df) as Hr0 by (rewrite Hdf; set_solver).
  assert (r0 ∈ sorted_group np_argsort df s) as Hin
    by (by apply elem_of_sorted_group).
  destruct (last (sorted_group np_argsort df s)) as [rl|] eqn:Hlast;
    [|apply last_None in Hlast; rewrite Hlast in Hin;
      by apply elem_of_nil in Hin].
  pose proof (last_Some_elem_of _ _ Hlast)
    as [Hrl Hsl]%elem_of_sorted_group; [|done].
  f_equal.
  (* the rows with a date, and the position of [r0] among them *)
  set (P := λ r, is_Some (Industry.Listdt r)).
  set (non_nans := filter P df).
  set (ks := omap Industry.Listdt non_nans).
  assert (non_nans = filter P before ++ r0 :: filter P after) as Hnon.
  { unfold non_nans. rewrite Hdf, filter_app, filter_cons_True; [done|].
    unfold P. by rewrite Hd0. }
  set (i0 := length (filter P before)).
  assert (non_nans !! i0 = Some r0) as Hi0
    by (rewrite Hnon; by apply list_lookup_middle).
  assert (Forall (is_Some ∘ Industry.Listdt) non_nans) as Hall
    by apply non_nans_Listdt.
  destruct (np_argsort_sorts ks) as [Hperm _].
  assert (length ks = length non_nans) as Hlen
    by (by apply omap_length_total).
  rewrite Hlen in Hperm.
  (* the group is the rows of [s] among the sorted rows with a date *)
  unfold sorted_group, sort_values_Listdt in Hlast.
  fold P non_nans ks in Hlast.
  rewrite filter_app in Hlast.
  rewrite (filter_none _ (filter _ df)), app_nil_r in Hlast.
  2:{ intros r [Hna Hr]%list_elem_of_filter Hsr.
      specialize (Hmax r Hr Hsr). by rewrite Hna in Hmax. }
  apply last_filter_omap in Hlast
    as (p1 & j & p2 & Hp & Hj & _ & Hp2).
  assert (i0 ∈ np_argsort ks) as Hi0p.
  { rewrite Hperm. apply elem_of_seq. apply lookup_lt_Some in Hi0. lia. }
  assert (NoDup (np_argsort ks)) as Hnd by (rewrite Hperm; apply NoDup_seq).
  rewrite Hp in Hi0p, Hnd.
  apply elem_of_app in Hi0p as [Hi0p|Hi0p]; [|apply elem_of_cons in Hi0p as [->|Hi0p]].
  - (* [r0] sorted before [rl]: [rl] would be a later row of the frame
       with the same date *)
    exfalso.
    pose proof (np_argsort_stable ks) as Hst. rewrite Hp in Hst.
    pose proof (Hmax rl Hrl Hsl) as Hle.
    destruct (Industry.Listdt rl) as [dj|] eqn:Hdj; [|done]. simpl in Hle.
    destruct (StronglySorted_app_1_elem_of _ _ _ i0 j Hst Hi0p
                ltac:(left) d0 dj) as [Hle' Hij].
    { unfold ks. rewrite lookup_omap_total, Hi0 by done. done. }
    { unfold ks. rewrite lookup_omap_total, Hj by done. done. }
    simpl in *. specialize (Hij Hle).
    assert (dj = d0) as -> by (by apply (anti_symm String.le)).
    assert (i0 ≠ j) as Hne.
    { intros ->. apply NoDup_app in Hnd as (_ & Hnd & _).
      apply (Hnd j); [done|left]. }
    rewrite Hnon in Hj.
    rewrite lookup_app_r in Hj by (fold i0; lia).
    fold i0 in Hj. destruct (j - i0) as [|k] eqn:Hk; [lia|]. simpl in Hj.
    apply list_elem_of_lookup_2, list_elem_of_filter in Hj as [_ Hj].
    by apply (Hafter rl).
  - by rewrite Hi0 in Hj; simplify_eq.
  - exfalso. by apply (Hp2 i0 r0).
Qed.

End latest_row_stable.

(** ** The rows of the panel *)

Section panel_rows.
Variable np_argsort : list string → list nat.
Context (monthly : list Monthly.row) (turnover : list Turnover.row)
        (industry : list Industry.row) (basic : list Basic.row).

Lemma elem_of_merged_tables r :
  r ∈ merged_tables np_argsort monthly turnover industry basic ↔
  ∃ m t b, m ∈ monthly ∧
           joined Monthly.key Turnover.key turnover m t ∧
           joined Monthly.Stkcd Basic.Stkcd basic m b ∧
           r = panel_row np_argsort industry m t b.
Proof.
  unfold merged_tables, merge_basic, merge_industry, merge_turnover,
    latest_industry.
  rewrite elem_of_merge_left. split.
  - intros (m2 & b & Hm2 & Hb & ->).
    apply elem_of_merge_left in Hm2 as (m1 & i & Hm1 & Hi & ->).
    apply elem_of_merge_left in Hm1 as (m & t & Hm & Ht & ->).
    apply joined_groupby in Hi as ->. by exists m, t, b.
  - intros (m & t & b & Hm & Ht & Hb & ->).
    eexists (Merged2.mk m _ _ _), b. split_and!; [|done|done].
    apply elem_of_merge_left.
    eexists (Merged1.mk m _), _. split_and!; [|by apply joined_groupby|done].
    apply elem_of_merge_left. by exists m, t.
Qed.

Lemma elem_of_merged_monthly r :
  r ∈ merged_monthly np_argsort monthly turnover industry basic ↔
  ∃ m t b, m ∈ monthly ∧
           joined Monthly.key Turnover.key turnover m t ∧
           joined Monthly.Stkcd Basic.Stkcd basic m b ∧
           r = scale_Msmvosd (panel_row np_argsort industry m t b).
Proof.
  unfold merged_monthly, sort_values_Stkcd_Trdmnt.
  rewrite list_elem_of_fmap. setoid_rewrite stable_sort_Permutation.
  setoid_rewrite elem_of_merged_tables. split.
  - intros (r0 & -> & m & t & b & ? & ? & ? & ->). by exists m, t, b.
  - intros (m & t & b & ? & ? & ? & ->).
    exists (panel_row np_argsort industry m t b). split; [done|]. by exists m, t, b.
Qed.

(** Row counts: a left merge never drops a row of [monthly_trade], and
    yields exactly one row for each when the keys of the right-hand tables
    are unique. *)
Lemma merged_monthly_length_ge :
  length monthly ≤
  length (merged_monthly np_argsort monthly turnover industry basic).
Proof.
  unfold merged_monthly, sort_values_Stkcd_Trdmnt, merged_tables,
    merge_basic, merge_industry, merge_turnover.
  rewrite length_fmap, stable_sort_length.
  etrans; [|apply merge_left_length_ge].
  etrans; [|apply merge_left_length_ge].
  apply merge_left_length_ge.
Qed.

Lemma merged_monthly_length :
  NoDup (Turnover.key <$> turnover) → NoDup (Basic.Stkcd <$> basic) →
  length (merged_monthly np_argsort monthly turnover industry basic)
  = length monthly.
Proof.
  intros Ht Hb.
  unfold merged_monthly, sort_values_Stkcd_Trdmnt, merged_tables,
    merge_basic, merge_industry, merge_turnover, latest_industry.
  rewrite length_fmap, stable_sort_length.
  rewrite merge_left_length by done.
  rewrite merge_left_length by apply groupby_Stkcd_last_NoDup.
  by rewrite merge_left_length.
Qed.

End panel_rows.

(** An industry code of the panel is a code of the industry table. *)
Lemma panel_row_Nnindcd np_argsort industry m t b c :
  Panel.Nnindcd (panel_row np_argsort industry m t b) = Some c →
  ∃ i, i ∈ industry ∧ Industry.Nnindcd i = Some c.
Proof.
  unfold panel_row, industry_lookup. simpl.
  destruct (Monthly.Stkcd m) as [s|]; simpl; [|done].
  case_decide; simpl; [|done].
  intros (i & Hi & Hin)%last_valid_elem_of%list_elem_of_fmap.
  apply list_elem_of_filter in Hin as [_ Hin%elem_of_sort_values_Listdt].
  by exists i.
Qed.

(** A product that fits 64 bits is kept as it is. *)
Lemma wrap_int64_id z :
  (- 2 ^ 63 ≤ z < 2 ^ 63)%Z → wrap_int64 z = z.
Proof.
  intros Hz. unfold wrap_int64. rewrite Z.mod_small by lia. lia.
Qed.

Lemma wrap_uint64_id z : (0 ≤ z < 2 ^ 64)%Z → wrap_uint64 z = z.
Proof. intros Hz. unfold wrap_uint64. by rewrite Z.mod_small. Qed.

Lemma string_length_append s1 s2 :
  String.length (String.append s1 s2) = String.length s1 + String.length s2.
Proof. induction s1 as [|c s1 IH]; simpl; [done|]. by rewrite IH. Qed.

(** A text repeated [n] times is [n] times as long. *)
Lemma str_mul_length s n :
  String.length (str_mul s n) = n * String.length s.
Proof.
  induction n as [|n IH]; [done|].
  cbn [str_mul]. rewrite string_length_append, IH. lia.
Qed.

Lemma scale_Msmvosd_row r :
  Panel.Stkcd (scale_Msmvosd r) = Panel.Stkcd r ∧
  Panel.Trdmnt (scale_Msmvosd r) = Panel.Trdmnt r ∧
  Monthly.fields (Panel.trade (scale_Msmvosd r)) = Monthly.fields (Panel.trade r) ∧
  Panel.Msmvosd (scale_Msmvosd r) = times_1000 (Panel.Msmvosd r).
Proof. done. Qed.

(** ** Running the call *)

Lemma bind_Ok {A B} (m : M A) (k : A → M B) h a h' :
  m h = (Ok a, h') → (m ≫= k) h = k a h'.
Proof. unfold mbind, M_bind. by intros ->. Qed.

Lemma bind_Raise {A B} (m : M A) (k : A → M B) h e h' :
  m h = (Raise e, h') → (m ≫= k) h = (Raise e, h').
Proof. unfold mbind, M_bind. by intros ->. Qed.

Lemma new_app h ext df :
  new df (h ++ ext) = (Ok (length h + length ext), h ++ (ext ++ [df])).
Proof. unfold new. by rewrite length_app, <-app_assoc. Qed.

Lemma deref_old h ext l df :
  h !! l = Some df → deref l (h ++ ext) = (Ok df, h ++ ext).
Proof. intros Hl. unfold deref. by rewrite (lookup_app_l_Some _ _ _ _ Hl). Qed.

Lemma deref_new h ext k df :
  ext !! k = Some df → deref (length h + k) (h ++ ext) = (Ok df, h ++ ext).
Proof.
  intros Hk. unfold deref.
  rewrite lookup_app_r by lia. by rewrite Nat.add_comm, Nat.add_sub, Hk.
Qed.

Lemma getitem_copy (d : gmap string nat) key l h ext df :
  d !! key = Some l → h !! l = Some df →
  (getitem d key ≫= copy) (h ++ ext)
  = (Ok (length h + length ext), h ++ (ext ++ [df])).
Proof.
  intros Hd Hl. unfold getitem. rewrite Hd.
  erewrite bind_Ok by done. unfold copy.
  erewrite bind_Ok by (by apply deref_old). apply new_app.
Qed.

Lemma getitem_copy_missing (d : gmap string nat) key H :
  d !! key = None → (getitem d key ≫= copy) H = (Raise (KeyError key), H).
Proof. intros Hd. unfold getitem. rewrite Hd. by erewrite bind_Raise. Qed.

Lemma columns_new {A} (rows : DataFrame → option (list A)) column h ext k df rs :
  ext !! k = Some df → rows df = Some rs →
  columns rows column (length h + k) (h ++ ext) = (Ok rs, h ++ ext).
Proof.
  intros Hk Hrs. unfold columns.
  erewrite bind_Ok by (by apply deref_new). by rewrite Hrs.
Qed.

Lemma columns_missing {A} (rows : DataFrame → option (list A)) column h ext k df :
  ext !! k = Some df → rows df = None →
  columns rows column (length h + k) (h ++ ext)
  = (Raise (KeyError column), h ++ ext).
Proof.
  intros Hk Hrs. unfold columns.
  erewrite bind_Ok by (by apply deref_new). by rewrite Hrs.
Qed.

Lemma store_new h ext k df :
  store (length h + k) df (h ++ ext) = (Ok (), h ++ <[k := df]> ext).
Proof.
  unfold store. f_equal.
  rewrite insert_app_r_alt by lia. by rewrite Nat.add_comm, Nat.add_sub.
Qed.

Lemma inputs_Some h d t :
  inputs h d = Some t →
  ∃ lm lt li lb,
    (d !! "monthly_trade" = Some lm ∧ h !! lm = Some (MonthlyTrade (monthly_trade t))) ∧
    (d !! "turnover" = Some lt ∧ h !! lt = Some (TurnoverMonthly (turnover t))) ∧
    (d !! "industry" = Some li ∧ h !! li = Some (IndustryInfo (industry t))) ∧
    (d !! "basic_info" = Some lb ∧ h !! lb = Some (BasicInfo (basic_info t))).
Proof.
  unfold inputs, table. intros Ht.
  destruct (d !! "monthly_trade") as [lm|]; simpl in Ht; [|done].
  destruct (h !! lm) as [[]|] eqn:Hm; simpl in Ht; try done.
  destruct (d !! "turnover") as [lt|]; simpl in Ht; [|done].
  destruct (h !! lt) as [[]|] eqn:Hlt; simpl in Ht; try done.
  destruct (d !! "industry") as [li|]; simpl in Ht; [|done].
  destruct (h !! li) as [[]|] eqn:Hi; simpl in Ht; try done.
  destruct (d !! "basic_info") as [lb|]; simpl in Ht; [|done].
  destruct (h !! lb) as [[]|] eqn:Hb; simpl in Ht; try done.
  injection Ht as <-. by exists lm, lt, li, lb.
Qed.

Lemma inputs_ext h1 d1 h2 d2 :
  (∀ key, key ≠ "daily_trade" → table h1 d1 key = table h2 d2 key) →
  inputs h1 d1 = inputs h2 d2.
Proof. intros Heq. unfold inputs. by rewrite !Heq. Qed.

Lemma table_lookup h d key :
  dict_valid h d →
  match table h d key with
  | Some df => ∃ l, d !! key = Some l ∧ h !! l = Some df
  | None => d !! key = None
  end.
Proof.
  intros Hvalid. unfold table.
  destruct (d !! key) as [l|] eqn:Hl; simpl; [|done].
  destruct (lookup_lt_is_Some_2 h l) as [df Hdf]; [by eapply Hvalid|].
  rewrite Hdf. by exists l.
Qed.

Section run.
Variable np_argsort : list string → list nat.

(** With the four tables in the mapping the call returns, and this is
    what it leaves in the store. *)
Lemma create_merged_monthly_dataset_run raw_data h d t :
  inputs h d = Some t →
  create_merged_monthly_dataset np_argsort raw_data (Some d) h
  = (Ok (length h + 8), h ++ allocated np_argsort t).
Proof.
  intros (lm & lt & li & lb & [Hdm Hm] & [Hdt Ht] & [Hdi Hi] & [Hdb Hb])
    %inputs_Some.
  unfold create_merged_monthly_dataset.
  rewrite <-(app_nil_r h) at 1.
  erewrite bind_Ok by done.
  erewrite bind_Ok by (by eapply getitem_copy). cbn [app length].
  erewrite bind_Ok by (by eapply getitem_copy). cbn [app length].
  erewrite bind_Ok by (by eapply getitem_copy). cbn [app length].
  erewrite bind_Ok by (by eapply getitem_copy). cbn [app length].
  erewrite bind_Ok.
  2:{ erewrite bind_Ok by (by eapply (columns_new _ _ _ _ 0)).
      erewrite bind_Ok by (by eapply (columns_new _ _ _ _ 1)).
      apply new_app. }
  cbn [app length].
  erewrite bind_Ok.
  2:{ erewrite bind_Ok by (by eapply (columns_new _ _ _ _ 2)).
      apply new_app. }
  cbn [app length].
  erewrite bind_Ok.
  2:{ erewrite bind_Ok by (by eapply (columns_new _ _ _ _ 4)).
      erewrite bind_Ok by (by eapply (columns_new _ _ _ _ 5)).
      apply new_app. }
  cbn [app length].
  erewrite bind_Ok.
  2:{ erewrite bind_Ok by (by eapply (columns_new _ _ _ _ 6)).
      erewrite bind_Ok by (by eapply (columns_new _ _ _ _ 3)).
      apply new_app. }
  cbn [app length].
  erewrite bind_Ok.
  2:{ erewrite bind_Ok by (by eapply (columns_new _ _ _ _ 7)).
      apply new_app. }
  cbn [app length].
  erewrite bind_Ok.
  2:{ unfold setitem_Msmvosd_times_1000.
      erewrite bind_Ok by (by eapply (deref_new _ _ 8)).
      apply store_new. }
  done.
Qed.

Lemma returned_outcome raw_data h d :
  dict_valid h d →
  returned (create_merged_monthly_dataset np_argsort raw_data (Some d) h)
  = outcome np_argsort (table h d "monthly_trade") (table h d "turnover")
      (table h d "industry") (table h d "basic_info").
Proof.
  intros Hvalid.
  pose proof (table_lookup h d "monthly_trade" Hvalid) as Hm.
  pose proof (table_lookup h d "turnover" Hvalid) as Ht.
  pose proof (table_lookup h d "industry" Hvalid) as Hi.
  pose proof (table_lookup h d "basic_info" Hvalid) as Hb.
  unfold create_merged_monthly_dataset.
  rewrite <-(app_nil_r h) at 1.
  erewrite bind_Ok by done.
  destruct (table h d "monthly_trade") as [dm|]; simpl;
    [destruct Hm as (lm & Hdm & Hm)
    |by erewrite bind_Raise by (by apply getitem_copy_missing)].
  erewrite bind_Ok by (by eapply getitem_copy). cbn [app length].
  destruct (table h d "turnover") as [dt|]; simpl;
    [destruct Ht as (lt & Hdt & Ht)
    |by erewrite bind_Raise by (by apply getitem_copy_missing)].
  erewrite bind_Ok by (by eapply getitem_copy). cbn [app length].
  destruct (table h d "industry") as [di|]; simpl;
    [destruct Hi as (li & Hdi & Hi)
    |by erewrite bind_Raise by (by apply getitem_copy_missing)].
  erewrite bind_Ok by (by eapply getitem_copy). cbn [app length].
  destruct (table h d "basic_info") as [db|]; simpl;
    [destruct Hb as (lb & Hdb & Hb)
    |by erewrite bind_Raise by (by apply getitem_copy_missing)].
  erewrite bind_Ok by (by eapply getitem_copy). cbn [app length].
  destruct (monthly_rows dm) as [m|] eqn:Hrm.
  2:{ erewrite bind_Raise; [done|].
      by erewrite bind_Raise by (by eapply (columns_missing _ _ _ _ 0)). }
  destruct (turnover_rows dt) as [t|] eqn:Hrt.
  2:{ erewrite bind_Raise; [done|].
      erewrite bind_Ok by (by eapply (columns_new _ _ _ _ 0)).
      by erewrite bind_Raise by (by eapply (columns_missing _ _ _ _ 1)). }
  erewrite bind_Ok.
  2:{ erewrite bind_Ok by (by eapply (columns_new _ _ _ _ 0)).
      erewrite bind_Ok by (by eapply (columns_new _ _ _ _ 1)).
      apply new_app. }
  cbn [app length].
  destruct (industry_rows di) as [i|] eqn:Hri.
  2:{ erewrite bind_Raise; [done|].
      by erewrite bind_Raise by (by eapply (columns_missing _ _ _ _ 2)). }
  erewrite bind_Ok.
  2:{ erewrite bind_Ok by (by eapply (columns_new _ _ _ _ 2)).
      apply new_app. }
  cbn [app length].
  erewrite bind_Ok.
  2:{ erewrite bind_Ok by (by eapply (columns_new _ _ _ _ 4)).
      erewrite bind_Ok by (by eapply (columns_new _ _ _ _ 5)).
      apply new_app. }
  cbn [app length].
  destruct (basic_rows db) as [b|] eqn:Hrb.
  2:{ erewrite bind_Raise; [done|].
      erewrite bind_Ok by (by eapply (columns_new _ _ _ _ 6)).
      by erewrite bind_Raise by (by eapply (columns_missing _ _ _ _ 3)). }
  erewrite bind_Ok.
  2:{ erewrite bind_Ok by (by eapply (columns_new _ _ _ _ 6)).
      erewrite bind_Ok by (by eapply (columns_new _ _ _ _ 3)).
      apply new_app. }
  cbn [app length].
  erewrite bind_Ok.
  2:{ erewrite bind_Ok by (by eapply (columns_new _ _ _ _ 7)).
      apply new_app. }
  cbn [app length].
  erewrite bind_Ok.
  2:{ unfold setitem_Msmvosd_times_1000.
      erewrite bind_Ok by (by eapply (deref_new _ _ 8)).
      apply store_new. }
  unfold returned, mret, M_ret. rewrite lookup_app_r by lia.
  by rewrite Nat.add_comm, Nat.add_sub.
Qed.

End run.

Section returned_panel.
Variable np_argsort : list string → list nat.

Lemma returned_run raw_data h d t :
  inputs h d = Some t →
  returned (create_merged_monthly_dataset np_argsort raw_data (Some d) h)
  = Ok (panel_of np_argsort t).
Proof.
  intros Ht. rewrite (create_merged_monthly_dataset_run _ _ _ _ _ Ht).
  unfold returned. rewrite lookup_app_r by lia.
  by rewrite Nat.add_comm, Nat.add_sub.
Qed.

(** The trade rows the merged frame carries are those of [monthly_trade],
    each at least once. *)
Lemma elem_of_trade_merged t m :
  m ∈ Panel.trade <$> merged_of np_argsort t ↔ m ∈ monthly_trade t.
Proof.
  rewrite list_elem_of_fmap. unfold merged_of.
  setoid_rewrite elem_of_merged_tables. split.
  - by intros (r & -> & m' & tr & b & ? & _ & _ & ->).
  - intros Hm.
    destruct (joined_exists Monthly.key Turnover.key (turnover t) m) as [tr ?].
    destruct (joined_exists Monthly.Stkcd Basic.Stkcd (basic_info t) m) as [b ?].
    exists (panel_row np_argsort (industry t) m tr b).
    split; [done|]. by exists m, tr, b.
Qed.

Lemma panel_of_sorted t :
  panel_of np_argsort t = scale_Msmvosd <$> sort_values_Stkcd_Trdmnt (merged_of np_argsort t).
Proof. done. Qed.

End returned_panel.

(** Before the last statement no frame of the call holds a market value
    other than those of [monthly_trade]. *)
Lemma allocated_trade_rows np_argsort t k df m :
  k < 8 → allocated np_argsort t !! k = Some df →
  m ∈ trade_rows df → m ∈ monthly_trade t.
Proof.
  intros Hk Hdf Hm.
  assert (m ∈ Merged1.trade <$> merge_turnover (monthly_trade t) (turnover t)
          → m ∈ monthly_trade t) as H1.
  { intros H'. eapply (elem_of_fmap_merge_left _ _ _ _ id) in H'; [|done].
    by rewrite list_fmap_id in H'. }
  assert (∀ latest,
    m ∈ Merged2.trade <$>
        merge_industry (merge_turnover (monthly_trade t) (turnover t)) latest
    → m ∈ monthly_trade t) as H2.
  { intros latest H'. apply H1.
    by eapply (elem_of_fmap_merge_left _ _ _ _ Merged1.trade) in H'. }
  destruct k as [|[|[|[|[|[|[|[|k]]]]]]]]; [..|lia];
    simpl in Hdf; simplify_eq; simpl in Hm;
    [done|by apply elem_of_nil in Hm..|by apply H1|by apply elem_of_nil in Hm
    |by eapply H2|].
  eapply H2.
  by eapply (elem_of_fmap_merge_left _ _ _ _ Merged2.trade) in Hm.
Qed.

(** The industry fields of the rows of the panel for identifier [s], when
    the last row of its group after [sort_values('Listdt')] has a code and a
    name. *)
Lemma panel_industry_last (np_argsort : list string → list nat) t s r0 c n r :
  argsort_sorts np_argsort →
  last (sorted_group np_argsort (industry t) s) = Some r0 →
  Industry.Nnindcd r0 = Some c → Industry.Nnindnme r0 = Some n →
  r ∈ panel_of np_argsort t → Panel.Stkcd r = Some s →
  Panel.Nnindcd r = Some c ∧ Panel.Nnindnme r = Some n.
Proof.
  intros Hsorts Hlast Hc Hn (m & tr & b & _ & _ & _ & ->)%elem_of_merged_monthly Hs.
  destruct (industry_lookup_last np_argsort Hsorts (industry t) s r0 c n)
    as (i & Hi & Hic & Hin); [done..|].
  change (Monthly.Stkcd m = Some s) in Hs.
  unfold scale_Msmvosd, panel_row. simpl. rewrite Hs, Hi. done.
Qed.

(** ** The objects a call leaves alone *)

Section frame.
Context (h : list DataFrame).

Lemma extends_length H : extends h H → length h ≤ length H.
Proof.
  unfold extends. intros HH.
  assert (length (take (length h) H) = length h) as Hl by (by rewrite HH).
  rewrite length_take in Hl. lia.
Qed.

Lemma keeps_ret {A} (a : A) (Q : A → Prop) : Q a → keeps h (mret a) Q.
Proof. intros HQ H HH. split; [done|]. by intros ? [= <-]. Qed.

Lemma keeps_raise {A} e (Q : A → Prop) : keeps h (raise e) Q.
Proof. by intros H HH. Qed.

Lemma keeps_bind {A B} (m : M A) (k : A → M B) (Q : A → Prop) (Q' : B → Prop) :
  keeps h m Q → (∀ a, Q a → keeps h (k a) Q') → keeps h (m ≫= k) Q'.
Proof.
  intros Hm Hk H HH. destruct (Hm H HH) as [Hext HQ].
  unfold mbind, M_bind. destruct (m H) as [[a|e] H']; simpl in *; [|done].
  by apply Hk; [apply HQ|].
Qed.

Lemma keeps_weaken {A} (m : M A) (Q Q' : A → Prop) :
  keeps h m Q → (∀ a, Q a → Q' a) → keeps h m Q'.
Proof. intros Hm HQ H HH. destruct (Hm H HH). naive_solver. Qed.

(** A new object is none of [h]. *)
Lemma keeps_new df : keeps h (new df) (λ l, length h ≤ l).
Proof.
  intros H HH. pose proof (extends_length H HH). unfold new; simpl. split.
  - unfold extends. by rewrite take_app_le.
  - by intros ? [= <-].
Qed.

Lemma keeps_deref l : keeps h (deref l) (λ _, True).
Proof. intros H HH. unfold deref. by destruct (H !! l). Qed.

(** An assignment to an object that is none of [h]. *)
Lemma keeps_store l df : length h ≤ l → keeps h (store l df) (λ _, True).
Proof.
  intros Hl H HH. unfold store; simpl. split; [|done].
  unfold extends. by rewrite take_insert_ge.
Qed.

Lemma keeps_getitem d key : keeps h (getitem d key) (λ _, True).
Proof.
  unfold getitem. destruct (d !! key); [by apply keeps_ret|apply keeps_raise].
Qed.

Lemma keeps_copy l : keeps h (copy l) (λ l', length h ≤ l').
Proof.
  eapply keeps_bind; [apply keeps_deref|]. intros df _. apply keeps_new.
Qed.

Lemma keeps_columns {A} (rows : DataFrame → option (list A)) column l :
  keeps h (columns rows column l) (λ _, True).
Proof.
  eapply keeps_bind; [apply keeps_deref|]. intros df _.
  destruct (rows df); [by apply keeps_ret|apply keeps_raise].
Qed.

Lemma keeps_setitem l :
  length h ≤ l → keeps h (setitem_Msmvosd_times_1000 l) (λ _, True).
Proof.
  intros Hl. eapply keeps_bind; [apply keeps_deref|]. intros df _.
  destruct df; first [by apply keeps_store | apply keeps_raise].
Qed.

Lemma keeps_read_csv {A} name (f : file A) frame :
  keeps h (read_csv name f frame) (λ l, length h ≤ l).
Proof. destruct f; simpl; [apply keeps_raise..|apply keeps_new]. Qed.

Lemma keeps_load_all raw_data : keeps h (load_all raw_data) (λ _, True).
Proof.
  unfold load_all.
  repeat (eapply keeps_bind; [apply keeps_read_csv|]; intros ? _).
  by apply keeps_ret.
Qed.

Lemma keeps_create_merged_monthly_dataset np_argsort raw_data data_dict :
  keeps h (create_merged_monthly_dataset np_argsort raw_data data_dict)
    (λ l, length h ≤ l).
Proof.
  unfold create_merged_monthly_dataset.
  eapply (keeps_bind _ _ (λ _, True)).
  { destruct data_dict; [by apply keeps_ret|apply keeps_load_all]. }
  intros d _.
  do 4 (eapply (keeps_bind _ _ (λ l, length h ≤ l));
        [eapply keeps_bind; [apply keeps_getitem|]; intros; apply keeps_copy|];
        intros ? ?).
  eapply (keeps_bind _ _ (λ l, length h ≤ l)).
  { do 2 (eapply keeps_bind; [apply keeps_columns|]; intros ? _).
    apply keeps_new. }
  intros ? ?.
  eapply (keeps_bind _ _ (λ l, length h ≤ l)).
  { eapply keeps_bind; [apply keeps_columns|]; intros ? _. apply keeps_new. }
  intros ? ?.
  do 2 (eapply (keeps_bind _ _ (λ l, length h ≤ l));
        [do 2 (eapply keeps_bind; [apply keeps_columns|]; intros ? _);
         apply keeps_new|];
        intros ? ?).
  eapply (keeps_bind _ _ (λ l, length h ≤ l)).
  { eapply keeps_bind; [apply keeps_columns|]; intros ? _. apply keeps_new. }
  intros l Hl.
  eapply keeps_bind; [by apply keeps_setitem|]. intros _ _.
  by apply keeps_ret.
Qed.

End frame.

(** ** Loading *)

Lemma load_all_Parsed rb ri rd rm rt h :
  load_all (mk_directory (Parsed rb) (Parsed ri) (Parsed rd) (Parsed rm)
              (Parsed rt)) h
  = (Ok (loaded_dict (length h)), h ++ loaded_frames rb ri rd rm rt).
Proof.
  unfold load_all. simpl.
  rewrite <-(app_nil_r h) at 1.
  do 5 (erewrite bind_Ok by apply new_app; cbn [app length]).
  done.
Qed.

Lemma table_loaded frames h key k df :
  loaded_dict (length h) !! key = Some (length h + k) →
  frames !! k = Some df →
  table (h ++ frames) (loaded_dict (length h)) key = Some df.
Proof.
  intros Hkey Hk. unfold table. rewrite Hkey. simpl.
  rewrite lookup_app_r by lia. by rewrite Nat.add_comm, Nat.add_sub.
Qed.

Lemma inputs_loaded rb ri rd rm rt h :
  inputs (h ++ loaded_frames rb ri rd rm rt) (loaded_dict (length h))
  = Some (loaded_tables rb ri rm rt).
Proof.
  unfold inputs.
  rewrite (table_loaded _ _ "monthly_trade" 3 (MonthlyTrade (read_monthly <$> rm)))
    by done.
  rewrite (table_loaded _ _ "turnover" 4 (TurnoverMonthly (read_turnover <$> rt)))
    by done.
  rewrite (table_loaded _ _ "industry" 1 (IndustryInfo (read_industry <$> ri)))
    by done.
  by rewrite (table_loaded _ _ "basic_info" 0 (BasicInfo (read_basic <$> rb))).
Qed.

Lemma load_all_first_error raw_data h :
  match first_error raw_data with
  | Some e => ∃ h', load_all raw_data h = (Raise e, h')
  | None => ∃ d h', load_all raw_data h = (Ok d, h') ∧
                    d = loaded_dict (length h)
  end.
Proof.
  destruct raw_data as [fb fi fd fm ft].
  unfold first_error, load_all, mbind, M_bind, read_csv, raise, new. simpl.
  destruct fb as [| |rb]; simpl; [by eexists..|].
  destruct fi as [| |ri]; simpl; [by eexists..|].
  destruct fd as [| |rd]; simpl; [by eexists..|].
  destruct fm as [| |rm]; simpl; [by eexists..|].
  destruct ft as [| |rt]; simpl; [by eexists..|].
  eexists _, _. split; [done|].
  unfold loaded_dict. rewrite !length_app. simpl.
  by rewrite Nat.add_0_r, <-!Nat.add_assoc.
Qed.

Lemma dom_loaded_dict l :
  dom (loaded_dict l)
  = {[ "basic_info"; "industry"; "daily_trade"; "monthly_trade"; "turnover" ]}.
Proof.
  unfold loaded_dict. rewrite !dom_insert_L, dom_empty_L. set_solver.
Qed.

Lemma first_error_absent raw_data :
  some_absent raw_data → is_Some (first_error raw_data).
Proof.
  destruct raw_data as [fb fi fd fm ft]. unfold some_absent, first_error. simpl.
  destruct fb; simpl; [by eexists..|].
  destruct fi; simpl; [by eexists..|].
  destruct fd; simpl; [by eexists..|].
  destruct fm; simpl; [by eexists..|].
  destruct ft; simpl; [by eexists..|].
  intros [[]|[[]|[[]|[[]|[]]]]].
Qed.

Lemma first_error_not_found raw_data :
  some_absent raw_data → ¬ some_unparsable raw_data →
  ∃ name, first_error raw_data = Some (FileNotFoundError name).
Proof.
  destruct raw_data as [fb fi fd fm ft].
  unfold some_absent, some_unparsable, first_error. simpl. intros Ha Hu.
  destruct fb; simpl in *; [by eexists|tauto|].
  destruct fi; simpl in *; [by eexists|tauto|].
  destruct fd; simpl in *; [by eexists|tauto|].
  destruct fm; simpl in *; [by eexists|tauto|].
  destruct ft; simpl in *; [by eexists|tauto|].
  tauto.
Qed.

Lemma create_merged_monthly_dataset_None np_argsort raw_data h d h' :
  load_all raw_data h = (Ok d, h') →
  create_merged_monthly_dataset np_argsort raw_data None h
  = create_merged_monthly_dataset np_argsort raw_data (Some d) h'.
Proof.
  intros Hload. unfold create_merged_monthly_dataset.
  erewrite bind_Ok by done. by erewrite (bind_Ok (mret d)).
Qed.

Lemma read_str_Some token s : read_str token = Some s → s = token.
Proof. unfold read_str. case_decide; [done|]. by intros [= <-]. Qed.

Lemma read_str_not_na token :
  token ∉ STR_NA_VALUES → read_str token = Some token.
Proof. intros Hna. unfold read_str. by rewrite decide_False. Qed.

Lemma read_str_na token : token ∈ STR_NA_VALUES → read_str token = None.
Proof. intros Hna. unfold read_str. by rewrite decide_True. Qed.

(** ** The markets *)

Lemma example_inputs : inputs Example.store Example.data_dict = Some Example.all.
Proof. reflexivity. Qed.

Example example_panel :
  returned (create_merged_monthly_dataset stable_argsort Example.raw_data
              (Some Example.data_dict) Example.store)
  = Ok [ Panel.mk (Monthly.mk (Some "000001") (Some 202301%Z) 250000%float [])
           0.5%float (Some "J66") (Some "Banking") (Some 4%Z) (Some "1991-04-03");
         Panel.mk (Monthly.mk (Some "000001") (Some 202302%Z) 500000%float [1.5%float])
           0.25%float (Some "J66") (Some "Banking") (Some 4%Z) (Some "1991-04-03");
         Panel.mk (Monthly.mk (Some "600000") (Some 202301%Z) 7000%float [])
           nan None None None None ].
Proof. vm_compute. reflexivity. Qed.

Lemma example_dict_valid h : length h = 5 → dict_valid h Example.data_dict.
Proof.
  intros Hh key l. unfold Example.data_dict. cbn [list_to_map foldr].
  repeat (rewrite lookup_insert; case_decide; [intros [= <-]; lia|]).
  by rewrite lookup_empty.
Qed.

Lemma other_daily_store_tables key :
  key ≠ "daily_trade" →
  table Example.store Example.data_dict key
  = table other_daily_store Example.data_dict key.
Proof.
  intros Hne. unfold table, Example.data_dict. cbn [list_to_map foldr].
  repeat (rewrite lookup_insert; case_decide; [by subst|]).
  by rewrite lookup_empty.
Qed.

Lemma reclassified_no_later_date r :
  r ∈ industry Reclassified.all → Industry.Stkcd r = Some "000001" →
  na_last String.le (Industry.Listdt r) (Some "2020-01-01").
Proof.
  intros Hr Hs. simpl in Hr.
  repeat (apply elem_of_cons in Hr as [->|Hr]); try done.
  by apply elem_of_nil in Hr.
Qed.

Lemma reclassified_no_tie_after r :
  r ∈ Reclassified.after → Industry.Stkcd r = Some "000001" →
  Industry.Listdt r ≠ Some "2020-01-01".
Proof.
  intros Hr Hs.
  repeat (apply elem_of_cons in Hr as [->|Hr]); try done.
  by apply elem_of_nil in Hr.
Qed.

(** The order of tied rows is numpy's: both [argsort]s meet what numpy
    promises of [kind='quicksort'], and the panel follows each; what the
    code fixes is the date of the row it takes, not the row. *)
Lemma tie_break_follows_argsort :
  returned (create_merged_monthly_dataset stable_argsort Example.raw_data
              (Some Example.data_dict) TiedNamed.store)
  = Ok [ Panel.mk (Monthly.mk (Some "A1") (Some 202103%Z) 500000%float [])
           nan (Some "20") (Some "Banking") None None ] ∧
  returned (create_merged_monthly_dataset unstable_argsort Example.raw_data
              (Some Example.data_dict) TiedNamed.store)
  = Ok [ Panel.mk (Monthly.mk (Some "A1") (Some 202103%Z) 500000%float [])
           nan (Some "10") (Some "Mining") None None ].
Proof. split; vm_compute; reflexivity. Qed.

(** Of the two tied rows of [Tied.industry] only the first has a name:
    whatever order [argsort] gives them, the panel shows that name, with
    the code of the row that comes last. *)
Lemma tie_break_any_argsort (np_argsort : list string → list nat) :
  argsort_sorts np_argsort →
  ∃ c,
    returned (create_merged_monthly_dataset np_argsort Example.raw_data
                (Some Example.data_dict) Tied.store)
    = Ok [ Panel.mk (Monthly.mk (Some "A1") (Some 202103%Z) 500000%float [])
             nan (Some c) (Some "Mining") None None ].
Proof.
  intros Hsorts.
  rewrite (returned_run np_argsort Example.raw_data Tied.store
             Example.data_dict
             (mk_tables [Monthly.mk (Some "A1") (Some 202103%Z) 500%float []]
                [] Tied.industry [])) by reflexivity.
  unfold panel_of, merged_monthly, merged_tables, latest_industry.
  cbn [monthly_trade turnover industry basic_info].
  pose proof (sort_values_Listdt_Permutation np_argsort Hsorts Tied.industry)
    as Hperm.
  symmetry in Hperm. apply Permutation_length_2_inv in Hperm as [-> | ->].
  - exists "20". vm_compute. reflexivity.
  - exists "10". vm_compute. reflexivity.
Qed.

(** ** Ties under a stable sort *)

(** Had the call asked for a stable kind of sort: when every row of an
    identifier has a date, [r0] is the last row of the industry table, in
    its order, among the rows of the identifier with the latest date, and
    [r0] has a code and a name, every row of the panel for the identifier
    carries the code and the name of [r0].  The default of [sort_values],
    [kind='quicksort'], does not promise this order of equal dates. *)
Lemma latest_industry_tie (np_argsort : list string → list nat)
    raw_data h d t s before r0 after d0 c n :
  argsort_sorts np_argsort → argsort_stable np_argsort →
  inputs h d = Some t →
  industry t = before ++ r0 :: after →
  Industry.Stkcd r0 = Some s → Industry.Listdt r0 = Some d0 →
  Industry.Nnindcd r0 = Some c → Industry.Nnindnme r0 = Some n →
  (∀ r, r ∈ industry t → Industry.Stkcd r = Some s →
        na_last String.le (Industry.Listdt r) (Some d0)) →
  (∀ r, r ∈ after → Industry.Stkcd r = Some s →
        Industry.Listdt r ≠ Some d0) →
  ∃ rows,
    returned (create_merged_monthly_dataset np_argsort raw_data (Some d) h)
    = Ok rows ∧
    ∀ r, r ∈ rows → Panel.Stkcd r = Some s →
         Panel.Nnindcd r = Some c ∧ Panel.Nnindnme r = Some n.
Proof.
  intros Hsorts Hstable Ht Hdf Hs Hd0 Hc Hn Hmax Hafter.
  exists (panel_of np_argsort t).
  split; [by apply returned_run|]. intros r Hr Hrs.
  eapply panel_industry_last; [done| |done..].
  by eapply sorted_group_last_tie.
Qed.

Lemma latest_industry_tie_witness :
  inputs Reclassified.store Example.data_dict = Some Reclassified.all ∧
  ∃ rows,
    returned (create_merged_monthly_dataset stable_argsort Example.raw_data
                (Some Example.data_dict) Reclassified.store)
    = Ok rows ∧
    ∀ r, r ∈ rows → Panel.Stkcd r = Some "000001" →
         Panel.Nnindcd r = Some "J66" ∧ Panel.Nnindnme r = Some "Banking".
Proof.
  split; [reflexivity|].
  apply (latest_industry_tie stable_argsort Example.raw_data
           Reclassified.store Example.data_dict Reclassified.all "000001"
           Reclassified.before Reclassified.latest Reclassified.after
           "2020-01-01" "J66" "Banking").
  - exact stable_argsort_sorts.
  - exact stable_argsort_stable.
  - reflexivity.
  - reflexivity.
  - reflexivity.
  - reflexivity.
  - reflexivity.
  - reflexivity.
  - exact reclassified_no_later_date.
  - exact reclassified_no_tie_after.
Defined.

(** ** The merges as one comprehension *)

Lemma matches_length {R K : Type} `{EqDecision K} (rkey : R → K) right k :
  length (matches rkey right k) = n_matches rkey right k.
Proof.
  unfold matches, n_matches. destruct (filter _ right); simpl; [done|].
  rewrite length_fmap. lia.
Qed.

Lemma merge_row_matches {L R K Out : Type} `{EqDecision K}
    (lkey : L → K) (rkey : R → K) (join : L → option R → Out) right l :
  merge_row lkey rkey join right l = join l <$> matches rkey right (lkey l).
Proof.
  unfold merge_row, matches. destruct (filter _ right); [done|].
  by rewrite <-list_fmap_compose.
Qed.

Lemma merge_left_app {L R K Out : Type} `{EqDecision K}
    (lkey : L → K) (rkey : R → K) (join : L → option R → Out) l1 l2 right :
  merge_left lkey rkey join (l1 ++ l2) right
  = merge_left lkey rkey join l1 right ++ merge_left lkey rkey join l2 right.
Proof. unfold merge_left. apply bind_app. Qed.

Lemma merge_left_fmap {L L' R K Out : Type} `{EqDecision K}
    (lkey : L → K) (rkey : R → K) (join : L → option R → Out)
    (f : L' → L) left right :
  merge_left lkey rkey join (f <$> left) right
  = left ≫= λ l, join (f l) <$> matches rkey right (lkey (f l)).
Proof.
  unfold merge_left. induction left as [|l left IH]; [done|].
  rewrite fmap_cons, !bind_cons, IH. by rewrite merge_row_matches.
Qed.

(** The merge with the latest industry yields one row for each row. *)
Lemma merge_industry_fmap df merged :
  merge_industry merged (groupby_Stkcd_last df)
  = (λ m, Merged2.mk (Merged1.trade m) (Merged1.ToverOsM m)
            (industry_lookup df (Monthly.Stkcd (Merged1.trade m))
               ≫= Industry.Nnindcd)
            (industry_lookup df (Monthly.Stkcd (Merged1.trade m))
               ≫= Industry.Nnindnme)) <$> merged.
Proof.
  unfold merge_industry, merge_left.
  induction merged as [|m merged IH]; [done|].
  rewrite bind_cons, IH, fmap_cons.
  match goal with |- merge_row ?lk ?rk ?j ?r m ++ _ = _ =>
    destruct (merge_row_unique lk rk j r m (groupby_Stkcd_last_NoDup df))
      as [o Ho];
    assert (j m o ∈ merge_row lk rk j r m) as Hin
      by (rewrite Ho; apply list_elem_of_here);
    apply elem_of_merge_row in Hin as (o' & Ho' & Heq); rewrite Ho, Heq
  end.
  apply joined_groupby in Ho' as ->. done.
Qed.

Section comprehension_correct.
Variable np_argsort : list string → list nat.

Lemma merged_of_bind t :
  merged_of np_argsort t = monthly_trade t ≫= rows_of_trade np_argsort t.
Proof.
  unfold merged_of, merged_tables, latest_industry.
  rewrite merge_industry_fmap.
  unfold merge_basic. rewrite merge_left_fmap.
  unfold merge_turnover, merge_left.
  induction (monthly_trade t) as [|m ms IH]; [done|].
  rewrite !bind_cons, bind_app, IH. f_equal.
  rewrite merge_row_matches. unfold rows_of_trade.
  induction (matches Turnover.key (turnover t) (Monthly.key m)) as [|tr trs IH'];
    [done|].
  rewrite fmap_cons, !bind_cons, IH'. done.
Qed.

Lemma rows_of_trade_length t m :
  length (rows_of_trade np_argsort t m) = fan_out t m.
Proof.
  unfold rows_of_trade, fan_out. rewrite <-!matches_length.
  induction (matches Turnover.key (turnover t) (Monthly.key m)) as [|tr trs IH];
    [done|].
  rewrite bind_cons, length_app, IH, length_fmap. simpl. done.
Qed.

Lemma merged_of_length t :
  length (merged_of np_argsort t) = sum_list (fan_out t <$> monthly_trade t).
Proof.
  rewrite merged_of_bind.
  induction (monthly_trade t) as [|m ms IH]; [done|].
  rewrite bind_cons, length_app, IH, rows_of_trade_length. done.
Qed.

Lemma panel_of_length t :
  length (panel_of np_argsort t) = length (merged_of np_argsort t).
Proof.
  unfold panel_of, merged_monthly, sort_values_Stkcd_Trdmnt, merged_of.
  by rewrite length_fmap, stable_sort_length.
Qed.

End comprehension_correct.

(** ** Sorting and projections *)

Lemma insert_sorted_fmap {A B} (f : A → B) (R1 : relation A) (R2 : relation B)
    `{!RelDecision R1, !RelDecision R2} x l :
  (∀ x y, R1 x y ↔ R2 (f x) (f y)) →
  f <$> insert_sorted R1 x l = insert_sorted R2 (f x) (f <$> l).
Proof.
  intros HR. induction l as [|y l IH]; simpl; [done|].
  case_decide as H1; case_decide as H2; simpl;
    [done|exfalso; apply H2, HR, H1|exfalso; apply H1, HR, H2
    |f_equal; apply IH].
Qed.

(** Sorting commutes with a projection that the order goes through. *)
Lemma stable_sort_fmap {A B} (f : A → B) (R1 : relation A) (R2 : relation B)
    `{!RelDecision R1, !RelDecision R2} l :
  (∀ x y, R1 x y ↔ R2 (f x) (f y)) →
  f <$> stable_sort R1 l = stable_sort R2 (f <$> l).
Proof.
  intros HR. induction l as [|x l IH]; [done|].
  rewrite fmap_cons. unfold stable_sort in *. cbn [foldr].
  rewrite <-IH. by apply insert_sorted_fmap.
Qed.

(** A frame that is in order is left as it is. *)
Lemma stable_sort_sorted {A} (R : relation A) `{!RelDecision R} l :
  StronglySorted R l → stable_sort R l = l.
Proof.
  induction 1 as [|x l _ IH Hx]; [done|].
  unfold stable_sort in *. cbn [foldr]. rewrite IH.
  destruct l as [|y l]; simpl; [done|].
  apply Forall_cons in Hx as [Hx _]. by rewrite decide_True.
Qed.

Lemma StronglySorted_lookup_lt {A} (R : relation A) l i j x y :
  StronglySorted R l → i < j → l !! i = Some x → l !! j = Some y → R x y.
Proof.
  intros Hs. revert i j. induction Hs as [|z l _ IH Hz]; intros i j Hij Hi Hj;
    [done|].
  destruct j as [|j]; [lia|]. simpl in Hj. destruct i as [|i]; simpl in Hi.
  - injection Hi as <-. eapply Forall_forall; [done|].
    by eapply list_elem_of_lookup_2.
  - eapply (IH i j); [lia|done..].
Qed.

Section sorted_panel.
Variable np_argsort : list string → list nat.

Lemma panel_of_StronglySorted t :
  StronglySorted (on_key Panel.key panel_key_le) (panel_of np_argsort t).
Proof.
  rewrite panel_of_sorted.
  apply (StronglySorted_fmap_elem_of (on_key Panel.key panel_key_le)).
  - by intros r1 r2 _ _ ?.
  - apply stable_sort_StronglySorted; apply _.
Qed.

(** The trade columns of the panel: those of the merged frame, sorted and
    rescaled. *)
Lemma panel_of_trade t :
  Panel.trade <$> panel_of np_argsort t
  = scale_trade <$>
      stable_sort (on_key Monthly.key panel_key_le)
        (Panel.trade <$> merged_of np_argsort t).
Proof.
  rewrite panel_of_sorted, <-list_fmap_compose.
  rewrite <-(stable_sort_fmap Panel.trade (on_key Panel.key panel_key_le)
               (on_key Monthly.key panel_key_le)) by done.
  by rewrite <-list_fmap_compose.
Qed.

Lemma merged_of_trade_unique t :
  NoDup (Turnover.key <$> turnover t) → NoDup (Basic.Stkcd <$> basic_info t) →
  Panel.trade <$> merged_of np_argsort t = monthly_trade t.
Proof.
  intros Ht Hb. rewrite merged_of_bind.
  induction (monthly_trade t) as [|m ms IH]; [done|].
  rewrite bind_cons, fmap_app, IH. f_equal.
  unfold rows_of_trade.
  pose proof (matches_length Turnover.key (turnover t) (Monthly.key m)) as H1.
  pose proof (matches_length Basic.Stkcd (basic_info t) (Monthly.Stkcd m)) as H2.
  pose proof (filter_key_NoDup Turnover.key (turnover t) (Monthly.key m) Ht).
  pose proof (filter_key_NoDup Basic.Stkcd (basic_info t) (Monthly.Stkcd m) Hb).
  unfold n_matches in *.
  destruct (matches Turnover.key _ _) as [|tr [|??]]; simpl in *; try lia.
  destruct (matches Basic.Stkcd _ _) as [|b [|??]]; simpl in *; try lia.
  done.
Qed.

(** A column of the trade rows has the values it has in [monthly_trade]. *)
Lemma elem_of_panel_of_trade {B} (f : Monthly.row → B) t x :
  (∀ m, f (scale_trade m) = f m) →
  x ∈ (λ r, f (Panel.trade r)) <$> panel_of np_argsort t ↔
  x ∈ f <$> monthly_trade t.
Proof.
  intros Hf. rewrite (list_fmap_compose Panel.trade f), panel_of_trade.
  rewrite <-list_fmap_compose, !list_elem_of_fmap.
  setoid_rewrite stable_sort_Permutation.
  setoid_rewrite elem_of_trade_merged.
  split; intros (m & -> & Hm); exists m; (split; [|done]); simpl; by rewrite Hf.
Qed.

End sorted_panel.

(** ** The industry fields of an identifier *)

Lemma last_valid_None {A} (column : list (option A)) :
  last_valid column = None ↔ ∀ x, x ∈ column → x = None.
Proof.
  unfold last_valid. rewrite last_None. split.
  - intros Hnil [a|] Hx; [|done].
    assert (a ∈ omap id column) as Ha by (apply list_elem_of_omap; by exists (Some a)).
    rewrite Hnil in Ha. by apply elem_of_nil in Ha.
  - intros Hall. destruct (omap id column) as [|a l] eqn:Ho; [done|].
    assert (a ∈ omap id column) as Ha by (rewrite Ho; apply list_elem_of_here).
    apply list_elem_of_omap in Ha as (x & Hx & Hxa). simpl in Hxa. subst x.
    by specialize (Hall _ Hx).
Qed.

Section industry_fields.
Variable np_argsort : list string → list nat.

(** The group of an identifier after [sort_values('Listdt')] holds rows of
    the industry table for that identifier, and all of them when [argsort]
    returns a permutation. *)
Lemma elem_of_sorted_group_1 df s i :
  i ∈ sorted_group np_argsort df s → i ∈ df ∧ Industry.Stkcd i = Some s.
Proof.
  unfold sorted_group.
  intros [Hs Hi%elem_of_sort_values_Listdt]%list_elem_of_filter. done.
Qed.

Lemma elem_of_sorted_group_2 df s i :
  argsort_sorts np_argsort →
  i ∈ df → Industry.Stkcd i = Some s → i ∈ sorted_group np_argsort df s.
Proof.
  intros Hsorts Hi Hs. unfold sorted_group. apply list_elem_of_filter.
  split; [done|]. by rewrite sort_values_Listdt_Permutation.
Qed.

Lemma industry_lookup_field {A} (field : Industry.row → option A)
    (column : option Industry.row → option A) df s :
  (∀ df s, column (Some (group_last df s))
           = last_valid (field <$> filter (λ r, Industry.Stkcd r = Some s) df)) →
  column None = None →
  column (industry_lookup (sort_values_Listdt np_argsort df) (Some s))
  = last_valid (field <$> sorted_group np_argsort df s).
Proof.
  intros Hcol Hnone. unfold industry_lookup, sorted_group. simpl.
  case_decide as Hs; [apply Hcol|].
  rewrite Hnone. symmetry. apply last_valid_None.
  intros x (i & -> & Hi)%list_elem_of_fmap.
  apply list_elem_of_filter in Hi as [Hi Hin]. destruct Hs.
  apply list_elem_of_omap. by exists i.
Qed.

Lemma panel_row_Nnindcd_group df m tr b s :
  Monthly.Stkcd m = Some s →
  Panel.Nnindcd (panel_row np_argsort df m tr b)
  = last_valid (Industry.Nnindcd <$> sorted_group np_argsort df s).
Proof.
  intros Hs. unfold panel_row. simpl. rewrite Hs.
  by apply (industry_lookup_field Industry.Nnindcd (λ i, i ≫= Industry.Nnindcd)).
Qed.

Lemma panel_row_Nnindnme_group df m tr b s :
  Monthly.Stkcd m = Some s →
  Panel.Nnindnme (panel_row np_argsort df m tr b)
  = last_valid (Industry.Nnindnme <$> sorted_group np_argsort df s).
Proof.
  intros Hs. unfold panel_row. simpl. rewrite Hs.
  by apply (industry_lookup_field Industry.Nnindnme (λ i, i ≫= Industry.Nnindnme)).
Qed.

Lemma last_valid_group_Some {A} (field : Industry.row → option A) df s c :
  last_valid (field <$> sorted_group np_argsort df s) = Some c →
  ∃ i, i ∈ df ∧ Industry.Stkcd i = Some s ∧ field i = Some c.
Proof.
  intros (i & Hi & Hin)%last_valid_elem_of%list_elem_of_fmap.
  apply elem_of_sorted_group_1 in Hin as [??]. by exists i.
Qed.

Lemma last_valid_group_None {A} (field : Industry.row → option A) df s :
  argsort_sorts np_argsort →
  last_valid (field <$> sorted_group np_argsort df s) = None ↔
  ∀ i, i ∈ df → Industry.Stkcd i = Some s → field i = None.
Proof.
  intros Hsorts. rewrite last_valid_None. split.
  - intros Hall i Hi Hs. apply Hall, list_elem_of_fmap. exists i.
    split; [done|]. by apply elem_of_sorted_group_2.
  - intros Hall x (i & -> & Hi)%list_elem_of_fmap.
    apply elem_of_sorted_group_1 in Hi as [??]. by apply Hall.
Qed.

End industry_fields.

(** The identifiers of the latest industry. *)
Lemma latest_industry_Stkcd np_argsort df :
  Industry.Stkcd <$> latest_industry np_argsort df
  = Some <$> stable_sort String.le
               (remove_dups (omap Industry.Stkcd (sort_values_Listdt np_argsort df))).
Proof.
  unfold latest_industry, groupby_Stkcd_last. by rewrite <-list_fmap_compose.
Qed.

(** ** Empty tables *)

Lemma take_rows_nil {A} (indexer : list nat) : take_rows (@nil A) indexer = [].
Proof. unfold take_rows. induction indexer as [|i indexer IH]; [done|]. simpl. done. Qed.

Lemma sort_values_Listdt_nil np_argsort : sort_values_Listdt np_argsort [] = [].
Proof.
  unfold sort_values_Listdt.
  change (take_rows [] (np_argsort (omap Industry.Listdt [])) ++ []
          = @nil Industry.row).
  by rewrite take_rows_nil.
Qed.

Lemma list_bind_singleton {A B} (f : A → B) (l : list A) :
  l ≫= (λ x, [f x]) = f <$> l.
Proof. induction l as [|x l IH]; [done|]. by rewrite bind_cons, IH. Qed.

(** ** The mapping after a call *)

Lemma table_extends h H d key :
  dict_valid h d → extends h H → table H d key = table h d key.
Proof.
  intros Hvalid Hext. unfold table.
  destruct (d !! key) as [l|] eqn:Hl; simpl; [|done].
  trans (take (length h) H !! l); [|by rewrite Hext].
  symmetry. apply lookup_take_lt. by eapply Hvalid.
Qed.

Lemma dict_valid_extends h H d :
  dict_valid h d → extends h H → dict_valid H d.
Proof.
  intros Hvalid Hext key l Hl. pose proof (extends_length h H Hext).
  specialize (Hvalid key l Hl). lia.
Qed.

Lemma table_is_Some h d key :
  dict_valid h d → is_Some (d !! key) → is_Some (table h d key).
Proof.
  intros Hvalid [l Hl]. unfold table. rewrite Hl. simpl.
  apply lookup_lt_is_Some_2. by eapply Hvalid.
Qed.

Lemma table_None h (d : gmap string nat) key : d !! key = None → table h d key = None.
Proof. intros Hd. unfold table. by rewrite Hd. Qed.

Lemma no_turnover_dict_valid h : length h = 5 → dict_valid h no_turnover_dict.
Proof.
  intros Hh key l. unfold no_turnover_dict. cbn [list_to_map foldr].
  repeat (rewrite lookup_insert; case_decide; [intros [= <-]; lia|]).
  by rewrite lookup_empty.
Qed.

(** ** Loading, then merging *)

Lemma loaded_dict_lookup l key r :
  loaded_dict l !! key = Some r →
  (key = "basic_info" ∧ r = l + 0) ∨ (key = "industry" ∧ r = l + 1) ∨
  (key = "daily_trade" ∧ r = l + 2) ∨ (key = "monthly_trade" ∧ r = l + 3) ∨
  (key = "turnover" ∧ r = l + 4).
Proof.
  unfold loaded_dict. intros Hr.
  repeat (apply lookup_insert_Some in Hr as [[<- <-]|[_ Hr]]; [tauto|]).
  by rewrite lookup_empty in Hr.
Qed.


Section load_then_build.
Variable np_argsort : list string → list nat.

Lemma create_merged_monthly_dataset_loaded rb ri rd rm rt h :
  returned (create_merged_monthly_dataset np_argsort
              (mk_directory (Parsed rb) (Parsed ri) (Parsed rd) (Parsed rm)
                 (Parsed rt)) None h)
  = Ok (panel_of np_argsort (loaded_tables rb ri rm rt)).
Proof.
  rewrite (create_merged_monthly_dataset_None _ _ _ _ _
             (load_all_Parsed rb ri rd rm rt h)).
  apply returned_run, inputs_loaded.
Qed.

End load_then_build.

(** ** The columns the script summarises *)

Lemma nunique_ext {A} `{EqDecision A} (c1 c2 : list (option A)) :
  (∀ x, Some x ∈ c1 ↔ Some x ∈ c2) → nunique c1 = nunique c2.
Proof.
  intros Heq. unfold nunique.
  apply Permutation_length, NoDup_Permutation; [apply NoDup_remove_dups..|].
  intros x. rewrite !elem_of_remove_dups, !list_elem_of_omap.
  split; intros (o & Ho & Hx); simpl in Hx; subst o;
    (eexists; split; [by apply Heq|done]).
Qed.

Lemma omap_length_le {A B} (f : A → option B) (l : list A) :
  length (omap f l) ≤ length l.
Proof.
  induction l as [|x l IH]; [done|]. simpl. destruct (f x); simpl.
  - apply ->Nat.succ_le_mono. exact IH.
  - constructor. exact IH.
Qed.

(** Values that are images of the values of another column are no more
    than those. *)
Lemma nunique_image {A B} `{EqDecision A, EqDecision B} (g : A → option B)
    (c1 : list (option B)) (c2 : list (option A)) :
  (∀ y, Some y ∈ c1 → ∃ x, Some x ∈ c2 ∧ g x = Some y) →
  nunique c1 ≤ nunique c2.
Proof.
  intros Himg. unfold nunique.
  trans (length (omap g (remove_dups (omap id c2)))); [|apply omap_length_le].
  apply submseteq_length, NoDup_submseteq; [apply NoDup_remove_dups|].
  intros y. rewrite elem_of_remove_dups, !list_elem_of_omap.
  intros (o & Ho & Hy). simpl in Hy. subst o.
  destruct (Himg y Ho) as (x & Hx & Hg). exists x. split; [|done].
  apply elem_of_remove_dups, list_elem_of_omap. by exists (Some x).
Qed.

Lemma elem_of_omap_id {A} (column : list (option A)) x :
  x ∈ omap id column ↔ Some x ∈ column.
Proof.
  rewrite list_elem_of_omap. split.
  - intros (o & Ho & Heq). simpl in Heq. by subst o.
  - intros Hx. by exists (Some x).
Qed.

(** [min] and [max] of a column depend on its values only. *)
Section series_fold.
Context (op : Z → Z → Z) (R : relation Z).
Hypothesis op_cases : ∀ x y, op x y = x ∨ op x y = y.
Hypothesis op_l : ∀ x y, R (op x y) x.
Hypothesis op_r : ∀ x y, R (op x y) y.
Context `{!Reflexive R, !Transitive R, !AntiSymm (=) R}.

Lemma series_fold_spec (vs : list Z) :
  match foldr (λ x acc, Some (from_option (op x) x acc)) None vs with
  | None => vs = []
  | Some m => m ∈ vs ∧ ∀ x, x ∈ vs → R m x
  end.
Proof.
  induction vs as [|v vs IH]; [done|]. simpl.
  destruct (foldr _ None vs) as [m|]; simpl.
  - destruct IH as [Hm Hle]. split.
    + destruct (op_cases v m) as [->| ->]; [left|by right].
    + intros x [->|Hx]%elem_of_cons; [apply op_l|].
      trans m; [apply op_r|by apply Hle].
  - subst vs. split; [left|]. by intros x ->%list_elem_of_singleton.
Qed.

Lemma series_fold_ext (vs1 vs2 : list Z) :
  (∀ x, x ∈ vs1 ↔ x ∈ vs2) →
  foldr (λ x acc, Some (from_option (op x) x acc)) None vs1
  = foldr (λ x acc, Some (from_option (op x) x acc)) None vs2.
Proof.
  intros Heq.
  pose proof (series_fold_spec vs1) as H1.
  pose proof (series_fold_spec vs2) as H2.
  destruct (foldr _ None vs1) as [m1|], (foldr _ None vs2) as [m2|].
  - destruct H1 as [Hm1 Hle1], H2 as [Hm2 Hle2]. f_equal.
    apply (anti_symm R); [by apply Hle1, Heq|by apply Hle2, Heq].
  - subst vs2. destruct H1 as [Hm1 _]. apply Heq in Hm1.
    by apply elem_of_nil in Hm1.
  - subst vs1. destruct H2 as [Hm2 _]. apply Heq in Hm2.
    by apply elem_of_nil in Hm2.
  - done.
Qed.

End series_fold.

Lemma series_min_ext (c1 c2 : list (option Z)) :
  (∀ x, Some x ∈ c1 ↔ Some x ∈ c2) → series_min c1 = series_min c2.
Proof.
  intros Heq. unfold series_min.
  apply (series_fold_ext Z.min Z.le);
    try (hnf; intros; lia).
  intros x. by rewrite !elem_of_omap_id.
Qed.

Lemma series_max_ext (c1 c2 : list (option Z)) :
  (∀ x, Some x ∈ c1 ↔ Some x ∈ c2) → series_max c1 = series_max c2.
Proof.
  intros Heq. unfold series_max.
  apply (series_fold_ext Z.max (flip Z.le));
    try (hnf; intros; unfold flip in *; lia).
  intros x. by rewrite !elem_of_omap_id.
Qed.

Section script.
Variable np_argsort : list string → list nat.

Lemma main_run rb ri rd rm rt h :
  let rows := panel_of np_argsort (loaded_tables rb ri rm rt) in
  (main np_argsort
     (mk_directory (Parsed rb) (Parsed ri) (Parsed rd) (Parsed rm) (Parsed rt))
     h).1
  = Ok (mk_report (take 5 rows)
          (series_min (Panel.Trdmnt <$> rows))
          (series_max (Panel.Trdmnt <$> rows))
          (nunique (Panel.Stkcd <$> rows))
          (nunique (Panel.Nnindcd <$> rows))).
Proof.
  intros rows. unfold main.
  erewrite bind_Ok by apply load_all_Parsed.
  erewrite bind_Ok
    by apply create_merged_monthly_dataset_run, inputs_loaded.
  erewrite bind_Ok by (by eapply (columns_new _ _ _ _ 8)).
  done.
Qed.


End script.

(** ** Paths *)

Lemma removelast_take {A} (l : list A) : removelast l = take (length l - 1) l.
Proof. rewrite removelast_firstn_len. by rewrite Nat.sub_1_r. Qed.

Lemma parent_parts p :
  Path.parts (Path.parent p)
  = take (length (Path.parts p) - 1) (Path.parts p).
Proof. apply removelast_take. Qed.

Lemma parse_absolute p :
  Path.root (Path.parse (String "/" p)) ≠ Path.Relative.
Proof.
  unfold Path.parse, Path.splitroot.
  change (Path.starts_with_sep (String "/" p)) with true.
  change (Path.tail (String "/" p)) with p. simpl.
  destruct (orb _ _); simpl; discriminate.
Qed.

Lemma parse_relative p :
  Path.starts_with_sep p = false → Path.root (Path.parse p) = Path.Relative.
Proof. intros Hp. unfold Path.parse, Path.splitroot. by rewrite Hp. Qed.

(** * The claims *)

(** ** Row count *)

(** C1, the claim as stated fails: one row of [monthly_trade] and a
    turnover table that lists its key twice give a panel of two rows. *)
Lemma row_count_fan_out :
  table Duplicates.store Example.data_dict "monthly_trade"
  = Some (MonthlyTrade [Monthly.mk (Some "A1") (Some 202103%Z) 500%float []]) ∧
  returned (create_merged_monthly_dataset stable_argsort Example.raw_data
              (Some Example.data_dict) Duplicates.store)
  = Ok [ Panel.mk (Monthly.mk (Some "A1") (Some 202103%Z) 500000%float [])
           0.5%float None None None None;
         Panel.mk (Monthly.mk (Some "A1") (Some 202103%Z) 500000%float [])
           0.75%float None None None None ].
Proof. split; vm_compute; reflexivity. Qed.

(** C1, as amended: the panel never has fewer rows than [monthly_trade],
    and it has exactly as many when no (identifier, year-month) key occurs
    twice in the turnover table and no identifier occurs twice in the basic
    information; the latest industry has one row per identifier by
    construction. *)
Theorem row_count (np_argsort : list string → list nat) raw_data h d t :
  inputs h d = Some t →
  ∃ rows,
    returned (create_merged_monthly_dataset np_argsort raw_data (Some d) h)
    = Ok rows ∧
    length (monthly_trade t) ≤ length rows ∧
    (NoDup (Turnover.key <$> turnover t) →
     NoDup (Basic.Stkcd <$> basic_info t) →
     length rows = length (monthly_trade t)).
Proof.
  intros Ht. exists (panel_of np_argsort t).
  split; [by apply returned_run|]. split.
  - apply merged_monthly_length_ge.
  - apply merged_monthly_length.
Qed.

Lemma row_count_witness :
  inputs Example.store Example.data_dict = Some Example.all ∧
  NoDup (Turnover.key <$> turnover Example.all) ∧
  NoDup (Basic.Stkcd <$> basic_info Example.all) ∧
  ∃ rows,
    returned (create_merged_monthly_dataset stable_argsort Example.raw_data
                (Some Example.data_dict) Example.store)
    = Ok rows ∧
    length (monthly_trade Example.all) ≤ length rows ∧
    (NoDup (Turnover.key <$> turnover Example.all) →
     NoDup (Basic.Stkcd <$> basic_info Example.all) →
     length rows = length (monthly_trade Example.all)).
Proof.
  split; [reflexivity|]. split; [compute_done|]. split; [compute_done|].
  apply (row_count stable_argsort Example.raw_data Example.store
           Example.data_dict Example.all).
  reflexivity.
Defined.

(** ** Market value *)

(** C2, the claim as stated fails: [monthly_trade.txt] with the market
    value 9223372036854776, an integer, so that the column loads as int64;
    the product with 1000 does not fit 64 bits and the panel shows a
    negative market value. *)
Lemma market_value_wraps :
  returned (create_merged_monthly_dataset stable_argsort large_value_directory
              None [])
  = Ok [ Panel.mk
           (Monthly.mk (Some "A1") (Some 202103%Z)
              (Int64 (-9223372036854775616)) [])
           nan None None None None ].
Proof. vm_compute. reflexivity. Qed.

(** C2, as amended: every row of the panel is a row of the merged frame,
    whose trade fields are those of a row of [monthly_trade], with the other
    trade fields unchanged and the market value multiplied by 1000 as pandas
    computes the product for the dtype of the column: in binary64 for a
    float64 column; modulo 2^64 for an int64 or uint64 column, which is the
    product itself when it fits; 1000 or 0 for a truth value; the text
    repeated 1000 times for a [str] of an object column.  The frames the
    call allocates before the one it returns hold the market values of
    [monthly_trade] as they are, so the multiplication is applied once, to
    the sorted frame. *)
Theorem market_value_scaled_once (np_argsort : list string → list nat)
    raw_data h d t :
  inputs h d = Some t →
  ∃ rows sources,
    returned (create_merged_monthly_dataset np_argsort raw_data (Some d) h)
    = Ok rows ∧
    Forall2 (λ r m,
        Panel.Stkcd r = Monthly.Stkcd m ∧
        Panel.Trdmnt r = Monthly.Trdmnt m ∧
        Monthly.fields (Panel.trade r) = Monthly.fields m ∧
        match Monthly.Msmvosd m with
        | Float64 x => Panel.Msmvosd r = Float64 (PrimFloat.mul x 1000%float)
        | Int64 z =>
            Panel.Msmvosd r = Int64 (wrap_int64 (z * 1000)) ∧
            ((-9223372036854775 ≤ z ≤ 9223372036854775)%Z →
             Panel.Msmvosd r = Int64 (z * 1000))
        | UInt64 z =>
            Panel.Msmvosd r = UInt64 (wrap_uint64 (z * 1000)) ∧
            ((0 ≤ z ≤ 18446744073709551)%Z →
             Panel.Msmvosd r = UInt64 (z * 1000))
        | Bool b => Panel.Msmvosd r = Int64 (if b then 1000 else 0)
        | Str s =>
            ∃ s', Panel.Msmvosd r = Str s' ∧ s' = str_mul s 1000 ∧
                  String.length s' = 1000 * String.length s
        end)
      rows sources ∧
    (∀ m, m ∈ sources ↔ m ∈ monthly_trade t) ∧
    (∀ l df m,
        length h ≤ l →
        Ok l ≠ (create_merged_monthly_dataset np_argsort raw_data (Some d) h).1 →
        (create_merged_monthly_dataset np_argsort raw_data (Some d) h).2 !! l
        = Some df →
        m ∈ trade_rows df → m ∈ monthly_trade t).
Proof.
  intros Ht.
  exists (panel_of np_argsort t),
    (Panel.trade <$> sort_values_Stkcd_Trdmnt (merged_of np_argsort t)).
  split; [by apply returned_run|]. split; [|split].
  - rewrite panel_of_sorted. apply Forall2_fmap, Forall_Forall2_diag.
    apply Forall_forall. intros r _.
    destruct (scale_Msmvosd_row r) as (Hs & Hm & Hf & Hv).
    split_and!; [done..|]. rewrite Hv. unfold Panel.Msmvosd.
    destruct (Monthly.Msmvosd (Panel.trade r)) as [z|z|x|b|s];
      cbv beta iota delta [times_1000].
    + split; [done|]. intros Hz. by rewrite wrap_int64_id by lia.
    + split; [done|]. intros Hz. by rewrite wrap_uint64_id by lia.
    + done.
    + done.
    + eexists. split; [done|]. split; [done|]. apply str_mul_length.
  - intros m. unfold sort_values_Stkcd_Trdmnt.
    rewrite stable_sort_Permutation. apply elem_of_trade_merged.
  - rewrite (create_merged_monthly_dataset_run _ _ _ _ _ Ht). simpl.
    intros l df m Hl Hne Hdf Hm.
    rewrite lookup_app_r in Hdf by done.
    assert (l - length h < 8).
    { apply lookup_lt_Some in Hdf. simpl in Hdf.
      destruct (decide (l - length h = 8)) as [E|]; [|lia].
      destruct Hne. f_equal. lia. }
    by eapply allocated_trade_rows.
Qed.

Lemma market_value_scaled_once_witness :
  inputs Example.store Example.data_dict = Some Example.all ∧
  ∃ rows sources,
    returned (create_merged_monthly_dataset stable_argsort Example.raw_data
                (Some Example.data_dict) Example.store)
    = Ok rows ∧
    Forall2 (λ r m,
        Panel.Stkcd r = Monthly.Stkcd m ∧
        Panel.Trdmnt r = Monthly.Trdmnt m ∧
        Monthly.fields (Panel.trade r) = Monthly.fields m ∧
        match Monthly.Msmvosd m with
        | Float64 x => Panel.Msmvosd r = Float64 (PrimFloat.mul x 1000%float)
        | Int64 z =>
            Panel.Msmvosd r = Int64 (wrap_int64 (z * 1000)) ∧
            ((-9223372036854775 ≤ z ≤ 9223372036854775)%Z →
             Panel.Msmvosd r = Int64 (z * 1000))
        | UInt64 z =>
            Panel.Msmvosd r = UInt64 (wrap_uint64 (z * 1000)) ∧
            ((0 ≤ z ≤ 18446744073709551)%Z →
             Panel.Msmvosd r = UInt64 (z * 1000))
        | Bool b => Panel.Msmvosd r = Int64 (if b then 1000 else 0)
        | Str s =>
            ∃ s', Panel.Msmvosd r = Str s' ∧ s' = str_mul s 1000 ∧
                  String.length s' = 1000 * String.length s
        end)
      rows sources ∧
    (∀ m, m ∈ sources ↔ m ∈ monthly_trade Example.all) ∧
    (∀ l df m,
        length Example.store ≤ l →
        Ok l ≠ (create_merged_monthly_dataset stable_argsort Example.raw_data
                  (Some Example.data_dict) Example.store).1 →
        (create_merged_monthly_dataset stable_argsort Example.raw_data
           (Some Example.data_dict) Example.store).2 !! l
        = Some df →
        m ∈ trade_rows df → m ∈ monthly_trade Example.all).
Proof.
  split; [reflexivity|].
  apply (market_value_scaled_once stable_argsort Example.raw_data
           Example.store Example.data_dict Example.all).
  reflexivity.
Defined.

(** ** Latest industry *)

(** C3, where the code departs from the claim: the row of 2020-01-01 has
    code 20 and no name, and the panel shows code 20 with the name of the
    row of 2010-01-01. *)
Lemma latest_industry_mixes_rows :
  returned (create_merged_monthly_dataset stable_argsort Example.raw_data
              (Some Example.data_dict) Unnamed.store)
  = Ok [ Panel.mk (Monthly.mk (Some "A1") (Some 202103%Z) 500000%float [])
           nan (Some "20") (Some "Mining") None None ].
Proof. vm_compute. reflexivity. Qed.

(** ** Missing turnover *)

(** C4: every row of [monthly_trade] is in the panel, with its market value
    rescaled; when no row of the turnover table has its (identifier,
    year-month) key, it is there with a null turnover, and so is every row
    of the panel with that key. *)
Theorem left_join_keeps_rows (np_argsort : list string → list nat)
    raw_data h d t :
  inputs h d = Some t →
  ∃ rows,
    returned (create_merged_monthly_dataset np_argsort raw_data (Some d) h)
    = Ok rows ∧
    ∀ m, m ∈ monthly_trade t →
      (∃ r, r ∈ rows ∧ Panel.trade r = scale_trade m) ∧
      ((∀ tr, tr ∈ turnover t → Turnover.key tr ≠ Monthly.key m) →
       (∃ r, r ∈ rows ∧ Panel.trade r = scale_trade m ∧ Panel.ToverOsM r = nan) ∧
       (∀ r, r ∈ rows → Panel.key r = Monthly.key m → Panel.ToverOsM r = nan)).
Proof.
  intros Ht. exists (panel_of np_argsort t).
  split; [by apply returned_run|]. intros m Hm.
  destruct (joined_exists Monthly.key Turnover.key (turnover t) m) as [tr Htr].
  destruct (joined_exists Monthly.Stkcd Basic.Stkcd (basic_info t) m) as [b Hb].
  assert (scale_Msmvosd (panel_row np_argsort (industry t) m tr b)
          ∈ panel_of np_argsort t) as Hin.
  { apply elem_of_merged_monthly. by exists m, tr, b. }
  split; [by eexists|]. intros Hno. split.
  - eexists. split; [done|]. split; [done|].
    destruct tr as [tr|]; [|done]. destruct Htr as [Htr Hk]. by destruct (Hno tr).
  - intros r (m' & tr' & b' & Hm' & Htr' & _ & ->)%elem_of_merged_monthly Hk.
    destruct tr' as [tr'|]; [|done]. destruct Htr' as [Htr' Hk'].
    destruct (Hno tr'); [done|]. by rewrite Hk'.
Qed.

Lemma left_join_keeps_rows_witness :
  inputs Example.store Example.data_dict = Some Example.all ∧
  Monthly.mk (Some "600000") (Some 202301%Z) 7%float []
    ∈ monthly_trade Example.all ∧
  ∃ rows,
    returned (create_merged_monthly_dataset stable_argsort Example.raw_data
                (Some Example.data_dict) Example.store)
    = Ok rows ∧
    ∀ m, m ∈ monthly_trade Example.all →
      (∃ r, r ∈ rows ∧ Panel.trade r = scale_trade m) ∧
      ((∀ tr, tr ∈ turnover Example.all → Turnover.key tr ≠ Monthly.key m) →
       (∃ r, r ∈ rows ∧ Panel.trade r = scale_trade m ∧ Panel.ToverOsM r = nan) ∧
       (∀ r, r ∈ rows → Panel.key r = Monthly.key m → Panel.ToverOsM r = nan)).
Proof.
  split; [reflexivity|]. split; [left|].
  apply (left_join_keeps_rows stable_argsort Example.raw_data Example.store
           Example.data_dict Example.all).
  reflexivity.
Defined.

(** ** Identifiers *)

(** C5, the claim as stated fails: the identifier [NA] of the monthly trades
    is loaded as a null, and the panel shows a null identifier. *)
Lemma identifier_NA_lost :
  returned (create_merged_monthly_dataset stable_argsort na_directory None [])
  = Ok [ Panel.mk (Monthly.mk None (Some 202301%Z) 7000%float [])
           nan None None None None ].
Proof. vm_compute. reflexivity. Qed.

(** C5, as amended: [load_all] reads the identifier of every row of the five
    files, and the industry code, with [read_str]: the frame under each of
    the five names holds, row by row, the token itself, leading zeros
    included, unless the token is one of the markers pandas reads as
    missing, which load as null.  The identifiers of the panel are those of
    the rows of the monthly trades, as loaded, and an industry code of the
    panel is the token of a row of the industry file. *)
Theorem identifiers_kept (np_argsort : list string → list nat)
    (rb : list Raw.basic) (ri : list Raw.industry) (rd : list Raw.daily)
    (rm : list Raw.monthly) (rt : list Raw.turnover) (h : list DataFrame) :
  let raw_data :=
    mk_directory (Parsed rb) (Parsed ri) (Parsed rd) (Parsed rm) (Parsed rt) in
  (∃ d, load_all raw_data h = (Ok d, h ++ loaded_frames rb ri rd rm rt) ∧
     ∃ basic industry daily monthly turnover,
       table (h ++ loaded_frames rb ri rd rm rt) d "basic_info"
       = Some (BasicInfo basic) ∧
       Forall2 (λ raw row, Basic.Stkcd row = read_str (Raw.basic_Stkcd raw))
         rb basic ∧
       table (h ++ loaded_frames rb ri rd rm rt) d "industry"
       = Some (IndustryInfo industry) ∧
       Forall2 (λ raw row,
           Industry.Stkcd row = read_str (Raw.industry_Stkcd raw) ∧
           Industry.Nnindcd row = read_str (Raw.industry_Nnindcd raw))
         ri industry ∧
       table (h ++ loaded_frames rb ri rd rm rt) d "daily_trade"
       = Some (DailyTrade daily) ∧
       Forall2 (λ raw row, Daily.Stkcd row = read_str (Raw.daily_Stkcd raw))
         rd daily ∧
       table (h ++ loaded_frames rb ri rd rm rt) d "monthly_trade"
       = Some (MonthlyTrade monthly) ∧
       Forall2 (λ raw row,
           Monthly.Stkcd row = read_str (Raw.monthly_Stkcd raw))
         rm monthly ∧
       table (h ++ loaded_frames rb ri rd rm rt) d "turnover"
       = Some (TurnoverMonthly turnover) ∧
       Forall2 (λ raw row,
           Turnover.Stkcd row = read_str (Raw.turnover_Stkcd raw))
         rt turnover) ∧
  (∃ rows,
     returned (create_merged_monthly_dataset np_argsort raw_data None h)
     = Ok rows ∧
     (∀ r, r ∈ rows →
           ∃ m, m ∈ rm ∧ Panel.Stkcd r = read_str (Raw.monthly_Stkcd m)) ∧
     (∀ m, m ∈ rm →
           ∃ r, r ∈ rows ∧ Panel.Stkcd r = read_str (Raw.monthly_Stkcd m)) ∧
     (∀ r c, r ∈ rows → Panel.Nnindcd r = Some c →
             ∃ i, i ∈ ri ∧ Raw.industry_Nnindcd i = c)) ∧
  (∀ token, token ∉ STR_NA_VALUES → read_str token = Some token) ∧
  (∀ token, token ∈ STR_NA_VALUES → read_str token = None) ∧
  Forall (λ token, read_str token = None)
    ["NA"; "NaN"; "nan"; "NULL"; "null"; "None"; "N/A"; "n/a"; "#N/A";
     "<NA>"; EmptyString] ∧
  read_str "000001" = Some "000001".
Proof.
  intros raw_data. split.
  { exists (loaded_dict (length h)). split; [apply load_all_Parsed|].
    exists (read_basic <$> rb), (read_industry <$> ri), (read_daily <$> rd),
      (read_monthly <$> rm), (read_turnover <$> rt).
    split_and!.
    - by apply (table_loaded _ _ _ 0).
    - by apply Forall2_fmap_r, Forall_Forall2_diag, Forall_forall.
    - by apply (table_loaded _ _ _ 1).
    - by apply Forall2_fmap_r, Forall_Forall2_diag, Forall_forall.
    - by apply (table_loaded _ _ _ 2).
    - by apply Forall2_fmap_r, Forall_Forall2_diag, Forall_forall.
    - by apply (table_loaded _ _ _ 3).
    - by apply Forall2_fmap_r, Forall_Forall2_diag, Forall_forall.
    - by apply (table_loaded _ _ _ 4).
    - by apply Forall2_fmap_r, Forall_Forall2_diag, Forall_forall. }
  split; [|split_and!;
             [apply read_str_not_na|apply read_str_na
             |by repeat constructor|done]].
  exists (panel_of np_argsort (loaded_tables rb ri rm rt)). split.
  { unfold raw_data.
    rewrite (create_merged_monthly_dataset_None _ _ _ _ _
               (load_all_Parsed rb ri rd rm rt h)).
    apply returned_run, inputs_loaded. }
  split; [|split].
  - intros r (m & t & b & Hm & _ & _ & ->)%elem_of_merged_monthly.
    apply list_elem_of_fmap in Hm as (m0 & -> & Hm0). by exists m0.
  - intros m0 Hm0.
    assert (read_monthly m0 ∈ monthly_trade (loaded_tables rb ri rm rt)) as Hm
      by (by apply list_elem_of_fmap_2).
    apply (elem_of_trade_merged np_argsort) in Hm.
    apply list_elem_of_fmap in Hm as (r0 & Hr0 & Hin).
    exists (scale_Msmvosd r0). split.
    + unfold panel_of, merged_monthly, sort_values_Stkcd_Trdmnt.
      apply list_elem_of_fmap_2. by rewrite stable_sort_Permutation.
    + unfold Panel.Stkcd. simpl. by rewrite <-Hr0.
  - intros r c (m & t & b & _ & _ & _ & ->)%elem_of_merged_monthly Hc.
    change (Panel.Nnindcd (scale_Msmvosd ?r)) with (Panel.Nnindcd r) in Hc.
    apply panel_row_Nnindcd in Hc as (i & Hi & Hc).
    apply list_elem_of_fmap in Hi as (i0 & -> & Hi0).
    exists i0. split; [done|]. symmetry. by apply read_str_Some.
Qed.

(** ** Order of the rows *)

(** C6: the rows of the panel are in non-decreasing order of (identifier,
    year-month), identifiers ordered as Python orders [str], months as
    timestamps, a null after every value; rows with the same key are in the
    order the merges left them in. *)
Theorem panel_sorted_stable (np_argsort : list string → list nat)
    raw_data h d t :
  inputs h d = Some t →
  ∃ rows,
    returned (create_merged_monthly_dataset np_argsort raw_data (Some d) h)
    = Ok rows ∧
    StronglySorted (on_key Panel.key panel_key_le) rows ∧
    ∀ k, filter (λ r, Panel.key r = k) rows
         = scale_Msmvosd <$>
             filter (λ r, Panel.key r = k) (merged_of np_argsort t).
Proof.
  intros Ht. exists (panel_of np_argsort t).
  split; [by apply returned_run|]. rewrite panel_of_sorted. split.
  - apply (StronglySorted_fmap_elem_of (on_key Panel.key panel_key_le)).
    + by intros r1 r2 _ _ ?.
    + apply stable_sort_StronglySorted; apply _.
  - intros k. rewrite filter_fmap. f_equal.
    unfold sort_values_Stkcd_Trdmnt.
    rewrite <-(stable_sort_filter (on_key Panel.key panel_key_le)
                 (λ r, Panel.key r = k) (merged_of np_argsort t)).
    + by apply list_filter_iff.
    + intros r1 r2 Hr1 Hr2. unfold on_key. rewrite Hr1, Hr2. done.
Qed.

Lemma panel_sorted_stable_witness :
  inputs Example.store Example.data_dict = Some Example.all ∧
  ∃ rows,
    returned (create_merged_monthly_dataset stable_argsort Example.raw_data
                (Some Example.data_dict) Example.store)
    = Ok rows ∧
    StronglySorted (on_key Panel.key panel_key_le) rows ∧
    ∀ k, filter (λ r, Panel.key r = k) rows
         = scale_Msmvosd <$>
             filter (λ r, Panel.key r = k) (merged_of stable_argsort Example.all).
Proof.
  split; [reflexivity|].
  apply (panel_sorted_stable stable_argsort Example.raw_data Example.store
           Example.data_dict Example.all).
  reflexivity.
Defined.

(** ** Missing files *)

(** C7, the claim as stated fails: with an unparsable [basic_info.txt] the
    call raises the parser's exception, although [turnover_monthly.txt] is
    absent. *)
Lemma load_all_parser_error_first :
  some_absent (mk_directory Unparsable (Parsed []) (Parsed []) (Parsed []) Absent) ∧
  (load_all (mk_directory Unparsable (Parsed []) (Parsed []) (Parsed []) Absent)
     []).1
  = Raise (ParserError "basic_info.txt").
Proof. split; [|reflexivity]. unfold some_absent. simpl. tauto. Qed.

(** C7, as amended: [load_all] reads the five files in the order
    [basic_info], industry, daily trades, monthly trades, turnover, and
    raises the exception of the first one that is absent
    ([FileNotFoundError]) or unparsable; nothing catches it, and
    [create_merged_monthly_dataset] called without a mapping raises it too.
    So the call fails whenever a file is absent, with [FileNotFoundError]
    when no file is unparsable.  When it returns, the mapping has exactly
    the five keys. *)
Theorem load_all_outcome (np_argsort : list string → list nat)
    (raw_data : directory) (h : list DataFrame) :
  match first_error raw_data with
  | Some e =>
      (load_all raw_data h).1 = Raise e ∧
      (create_merged_monthly_dataset np_argsort raw_data None h).1 = Raise e
  | None =>
      ∃ d, (load_all raw_data h).1 = Ok d ∧
           dom d = {[ "basic_info"; "industry"; "daily_trade";
                      "monthly_trade"; "turnover" ]}
  end ∧
  (some_absent raw_data → is_Some (first_error raw_data)) ∧
  (some_absent raw_data → ¬ some_unparsable raw_data →
   ∃ name, first_error raw_data = Some (FileNotFoundError name)).
Proof.
  split; [|split; [apply first_error_absent|apply first_error_not_found]].
  pose proof (load_all_first_error raw_data h) as Hload.
  destruct (first_error raw_data) as [e|].
  - destruct Hload as [h' Hload]. split; [by rewrite Hload|].
    unfold create_merged_monthly_dataset.
    by erewrite bind_Raise.
  - destruct Hload as (d & h' & Hload & ->). exists (loaded_dict (length h)).
    split; [by rewrite Hload|]. apply dom_loaded_dict.
Qed.

(** ** The input tables after the call *)

(** C8: whatever the mapping holds, and whether the call returns or raises,
    every frame that existed before the call is afterwards what it was, so
    every key of the mapping refers to the table it referred to; the frame
    the call returns, the only one assigned to, is a new one. *)
Theorem inputs_not_mutated (np_argsort : list string → list nat)
    (raw_data : directory) (data_dict : option (gmap string nat))
    (h : list DataFrame) :
  let out := create_merged_monthly_dataset np_argsort raw_data data_dict h in
  take (length h) out.2 = h ∧
  (∀ d key df, table h d key = Some df → table out.2 d key = Some df) ∧
  (∀ l, out.1 = Ok l → length h ≤ l).
Proof.
  intros out.
  destruct (keeps_create_merged_monthly_dataset h np_argsort raw_data
              data_dict h) as [Hext Hnew].
  { unfold extends. apply firstn_all. }
  fold out in Hext, Hnew. split; [done|]. split; [|done].
  unfold table. intros d key df Hdf.
  destruct (d !! key) as [l|]; simpl in *; [|done].
  pose proof (lookup_lt_Some _ _ _ Hdf) as Hl.
  by rewrite <-(lookup_take_lt out.2 (length h) l), Hext.
Qed.

(** ** The daily trades *)

(** C9: two mappings that agree on the four tables other than the daily
    trades give the same result, the same panel or the same exception,
    whatever their daily trades and whatever else the stores hold. *)
Theorem daily_trade_unused (np_argsort : list string → list nat)
    raw_data h1 d1 h2 d2 :
  dict_valid h1 d1 → dict_valid h2 d2 →
  (∀ key, key ≠ "daily_trade" → table h1 d1 key = table h2 d2 key) →
  returned (create_merged_monthly_dataset np_argsort raw_data (Some d1) h1)
  = returned (create_merged_monthly_dataset np_argsort raw_data (Some d2) h2).
Proof.
  intros Hv1 Hv2 Heq. rewrite !returned_outcome by done. by rewrite !Heq.
Qed.

Lemma daily_trade_unused_witness :
  table Example.store Example.data_dict "daily_trade"
  ≠ table other_daily_store Example.data_dict "daily_trade" ∧
  is_Some (inputs Example.store Example.data_dict) ∧
  returned (create_merged_monthly_dataset stable_argsort Example.raw_data
              (Some Example.data_dict) Example.store)
  = returned (create_merged_monthly_dataset stable_argsort Example.raw_data
                (Some Example.data_dict) other_daily_store).
Proof.
  split; [discriminate|]. split; [by eexists|].
  apply (daily_trade_unused stable_argsort Example.raw_data
           Example.store Example.data_dict other_daily_store Example.data_dict).
  - apply example_dict_valid. reflexivity.
  - apply example_dict_valid. reflexivity.
  - exact other_daily_store_tables.
Defined.

(** ** Ties of the latest industry *)

(** C10, where the code departs from the claim: of two rows of the same
    date the second, the last of the tied rows in the order of the table,
    has code 20 and no name; the panel shows code 20 with the name of the
    first row, a classification that no row of the table has; the name
    is that of the first row whatever order the sort gives to the two rows
    ([tie_break_any_argsort]).  Nor does the call ask [sort_values] for a
    stable kind of sort ([tie_break_follows_argsort]). *)
Lemma tie_break_mixes_rows :
  returned (create_merged_monthly_dataset stable_argsort Example.raw_data
              (Some Example.data_dict) Tied.store)
  = Ok [ Panel.mk (Monthly.mk (Some "A1") (Some 202103%Z) 500000%float [])
           nan (Some "20") (Some "Mining") None None ].
Proof. vm_compute. reflexivity. Qed.

(** * Further properties of the loader *)

(** ** [__init__] *)

(** X1: a [raw_data_path] that starts with [/] is the data directory as it
    is, wherever the module is. *)
Theorem init_absolute (__file__ p : string) :
  raw_data_path (__init__ __file__ (String "/" p)) = Path.parse (String "/" p).
Proof.
  unfold __init__, Path.joinpath. cbn [raw_data_path].
  pose proof (parse_absolute p) as Hroot.
  by destruct (Path.root (Path.parse (String "/" p))).
Qed.

(** X2: a [raw_data_path] that does not start with [/] is taken from the
    directory three levels above the module file (from the current
    directory or the root when the path of the module has fewer than three
    components), with its [..] kept: the default [../data/raw] of a module
    at [<repo>/src/data/loader.py] is [<repo>/../data/raw]. *)
Theorem init_relative (__file__ p : string) :
  Path.starts_with_sep p = false →
  raw_data_path (__init__ __file__ p)
  = Path.mk (Path.root (Path.parse __file__))
      (take (length (Path.parts (Path.parse __file__)) - 3)
         (Path.parts (Path.parse __file__))
       ++ Path.parts (Path.parse p)).
Proof.
  intros Hp. unfold __init__, Path.joinpath. cbn [raw_data_path].
  rewrite (parse_relative p Hp). f_equal. f_equal.
  rewrite !parent_parts, !take_take, !length_take. f_equal. lia.
Qed.

Lemma init_relative_witness :
  Path.starts_with_sep default_raw_data_path = false ∧
  raw_data_path
    (__init__ "/srv/gnn_asset_pricing/src/data/loader.py" default_raw_data_path)
  = Path.mk Path.Root ["srv"; "gnn_asset_pricing"; ".."; "data"; "raw"].
Proof.
  split; [reflexivity|].
  exact (init_relative "/srv/gnn_asset_pricing/src/data/loader.py"
           default_raw_data_path eq_refl).
Defined.

(** ** [load_all] *)

(** X3: when the five files parse, [load_all] leaves every existing frame
    as it is, allocates five frames, and returns a mapping in which each of
    the five names refers to the table of its own file; no two names refer
    to the same frame. *)
Theorem load_all_tables (rb : list Raw.basic) (ri : list Raw.industry)
    (rd : list Raw.daily) (rm : list Raw.monthly) (rt : list Raw.turnover)
    (h : list DataFrame) :
  let out :=
    load_all (mk_directory (Parsed rb) (Parsed ri) (Parsed rd) (Parsed rm)
                (Parsed rt)) h in
  ∃ d, out.1 = Ok d ∧
    take (length h) out.2 = h ∧
    length out.2 = length h + 5 ∧
    table out.2 d "basic_info" = Some (BasicInfo (read_basic <$> rb)) ∧
    table out.2 d "industry" = Some (IndustryInfo (read_industry <$> ri)) ∧
    table out.2 d "daily_trade" = Some (DailyTrade (read_daily <$> rd)) ∧
    table out.2 d "monthly_trade" = Some (MonthlyTrade (read_monthly <$> rm)) ∧
    table out.2 d "turnover" = Some (TurnoverMonthly (read_turnover <$> rt)) ∧
    (∀ key1 key2 l, d !! key1 = Some l → d !! key2 = Some l → key1 = key2).
Proof.
  intros out. unfold out. rewrite load_all_Parsed. simpl.
  exists (loaded_dict (length h)). split_and!; [done|..].
  - by rewrite take_app_length.
  - rewrite length_app. done.
  - by apply (table_loaded _ _ _ 0).
  - by apply (table_loaded _ _ _ 1).
  - by apply (table_loaded _ _ _ 2).
  - by apply (table_loaded _ _ _ 3).
  - by apply (table_loaded _ _ _ 4).
  - intros key1 key2 l H1%loaded_dict_lookup H2%loaded_dict_lookup.
    destruct H1 as [[-> ->]|[[-> ->]|[[-> ->]|[[-> ->]|[-> ->]]]]];
      destruct H2 as [[-> ?]|[[-> ?]|[[-> ?]|[[-> ?]|[-> ?]]]]];
      first [done|lia].
Qed.


(** X5: the call without a mapping reads [daily_trade.txt] and uses none
    of its rows: two directories that differ in the rows of that file give
    the same result, the same panel or the same exception; without the file
    the call raises [FileNotFoundError] once the two files before it are
    read. *)
Theorem daily_trade_file_read_not_used (np_argsort : list string → list nat)
    (fb : file Raw.basic) (fi : file Raw.industry) (fm : file Raw.monthly)
    (ft : file Raw.turnover) :
  (∀ rd rd' h h',
     returned (create_merged_monthly_dataset np_argsort
                 (mk_directory fb fi (Parsed rd) fm ft) None h)
     = returned (create_merged_monthly_dataset np_argsort
                   (mk_directory fb fi (Parsed rd') fm ft) None h')) ∧
  (∀ rb ri h,
     returned (create_merged_monthly_dataset np_argsort
                 (mk_directory (Parsed rb) (Parsed ri) Absent fm ft) None h)
     = Raise (FileNotFoundError "daily_trade.txt")).
Proof.
  split; [|done].
  intros rd rd' h h'.
  destruct fb as [| |rb]; [done..|].
  destruct fi as [| |ri]; [done..|].
  destruct fm as [| |rm]; [done..|].
  destruct ft as [| |rt]; [done..|].
  by rewrite !create_merged_monthly_dataset_loaded.
Qed.

(** ** [create_merged_monthly_dataset] *)

(** X6: a mapping that lacks one of the keys [monthly_trade], [turnover],
    [industry], [basic_info] makes the call raise [KeyError] for the first
    of them, in this order, that it lacks. *)
Theorem missing_key_raises (np_argsort : list string → list nat)
    raw_data h d key before after :
  dict_valid h d →
  ["monthly_trade"; "turnover"; "industry"; "basic_info"]
  = before ++ key :: after →
  (∀ k, k ∈ before → is_Some (d !! k)) →
  d !! key = None →
  returned (create_merged_monthly_dataset np_argsort raw_data (Some d) h)
  = Raise (KeyError key).
Proof.
  intros Hvalid Hkeys Hbefore Hkey.
  rewrite returned_outcome by done.
  pose proof (table_None h d key Hkey) as Hnone.
  assert (∀ k, k ∈ before → is_Some (table h d k)) as Hsome
    by (intros k Hk; by apply table_is_Some, Hbefore).
  destruct before as [|k1 [|k2 [|k3 [|k4 before]]]]; simplify_eq/=.
  - by rewrite Hnone.
  - destruct (Hsome "monthly_trade") as [? ->]; [set_solver|].
    by rewrite Hnone.
  - destruct (Hsome "monthly_trade") as [? ->]; [set_solver|].
    destruct (Hsome "turnover") as [? ->]; [set_solver|].
    by rewrite Hnone.
  - destruct (Hsome "monthly_trade") as [? ->]; [set_solver|].
    destruct (Hsome "turnover") as [? ->]; [set_solver|].
    destruct (Hsome "industry") as [? ->]; [set_solver|].
    by rewrite Hnone.
  - by destruct before.
Qed.

Lemma missing_key_raises_witness :
  returned (create_merged_monthly_dataset stable_argsort Example.raw_data
              (Some no_turnover_dict) Example.store)
  = Raise (KeyError "turnover").
Proof.
  apply (missing_key_raises stable_argsort Example.raw_data Example.store
           no_turnover_dict "turnover" ["monthly_trade"]
           ["industry"; "basic_info"]).
  - apply no_turnover_dict_valid. reflexivity.
  - reflexivity.
  - intros k ->%list_elem_of_singleton. by eexists.
  - reflexivity.
Defined.

(** X7: the three merges, the sort and the rescaling as one expression.
    The panel is the stable sort by (identifier, year-month) of the rows
    that each row of [monthly_trade] yields, in the order of
    [monthly_trade]: one row for each pair of a turnover row with its key
    and a basic row with its identifier (nulls where none matches), the
    turnover rows leading, with the latest industry of its identifier; then
    the market value is multiplied by 1000. *)
Theorem panel_comprehension (np_argsort : list string → list nat)
    raw_data h d t :
  inputs h d = Some t →
  returned (create_merged_monthly_dataset np_argsort raw_data (Some d) h)
  = Ok (scale_Msmvosd <$>
          stable_sort (on_key Panel.key panel_key_le)
            (monthly_trade t ≫= rows_of_trade np_argsort t)).
Proof.
  intros Ht. rewrite (returned_run _ _ _ _ _ Ht).
  by rewrite panel_of_sorted, merged_of_bind.
Qed.

Lemma panel_comprehension_witness :
  inputs Example.store Example.data_dict = Some Example.all ∧
  returned (create_merged_monthly_dataset stable_argsort Example.raw_data
              (Some Example.data_dict) Example.store)
  = Ok (scale_Msmvosd <$>
          stable_sort (on_key Panel.key panel_key_le)
            (monthly_trade Example.all
               ≫= rows_of_trade stable_argsort Example.all)).
Proof.
  split; [reflexivity|].
  apply (panel_comprehension stable_argsort Example.raw_data Example.store
           Example.data_dict Example.all).
  reflexivity.
Defined.

(** X8: the number of rows of the panel is the sum, over the rows of
    [monthly_trade], of the number of turnover rows with the key of the row
    (1 when there is none) times the number of basic rows with its
    identifier (1 when there is none); the industry table never adds a
    row. *)
Theorem row_count_exact (np_argsort : list string → list nat)
    raw_data h d t :
  inputs h d = Some t →
  ∃ rows,
    returned (create_merged_monthly_dataset np_argsort raw_data (Some d) h)
    = Ok rows ∧
    length rows = sum_list (fan_out t <$> monthly_trade t).
Proof.
  intros Ht. exists (panel_of np_argsort t).
  split; [by apply returned_run|].
  by rewrite panel_of_length, merged_of_length.
Qed.

Lemma row_count_exact_witness :
  inputs Duplicates.store Example.data_dict
  = Some (mk_tables Duplicates.monthly Duplicates.turnover [] []) ∧
  ∃ rows,
    returned (create_merged_monthly_dataset stable_argsort Example.raw_data
                (Some Example.data_dict) Duplicates.store)
    = Ok rows ∧
    length rows
    = sum_list (fan_out (mk_tables Duplicates.monthly Duplicates.turnover [] [])
                  <$> Duplicates.monthly).
Proof.
  split; [reflexivity|].
  apply (row_count_exact stable_argsort Example.raw_data Duplicates.store
           Example.data_dict
           (mk_tables Duplicates.monthly Duplicates.turnover [] [])).
  reflexivity.
Defined.

(** X9: with unique keys in the turnover table and in the basic
    information, the trade columns of the panel are [monthly_trade] itself,
    stably sorted by (identifier, year-month) and with the market value
    rescaled; when [monthly_trade] is already in that order, row by row. *)
Theorem trade_columns_unique_keys (np_argsort : list string → list nat)
    raw_data h d t :
  inputs h d = Some t →
  NoDup (Turnover.key <$> turnover t) → NoDup (Basic.Stkcd <$> basic_info t) →
  ∃ rows,
    returned (create_merged_monthly_dataset np_argsort raw_data (Some d) h)
    = Ok rows ∧
    Panel.trade <$> rows
    = scale_trade <$>
        stable_sort (on_key Monthly.key panel_key_le) (monthly_trade t) ∧
    (StronglySorted (on_key Monthly.key panel_key_le) (monthly_trade t) →
     Panel.trade <$> rows = scale_trade <$> monthly_trade t).
Proof.
  intros Ht Hnt Hnb. exists (panel_of np_argsort t).
  split; [by apply returned_run|].
  rewrite panel_of_trade, merged_of_trade_unique by done.
  split; [done|]. intros Hsorted. by rewrite stable_sort_sorted.
Qed.

Lemma trade_columns_unique_keys_witness :
  inputs Example.store Example.data_dict = Some Example.all ∧
  ∃ rows,
    returned (create_merged_monthly_dataset stable_argsort Example.raw_data
                (Some Example.data_dict) Example.store)
    = Ok rows ∧
    Panel.trade <$> rows
    = scale_trade <$>
        stable_sort (on_key Monthly.key panel_key_le)
          (monthly_trade Example.all) ∧
    (StronglySorted (on_key Monthly.key panel_key_le)
       (monthly_trade Example.all) →
     Panel.trade <$> rows = scale_trade <$> monthly_trade Example.all).
Proof.
  split; [reflexivity|].
  apply (trade_columns_unique_keys stable_argsort Example.raw_data
           Example.store Example.data_dict Example.all).
  - reflexivity.
  - compute_done.
  - compute_done.
Defined.

(** X10: every row of the panel is a row of [monthly_trade] with its
    market value rescaled; its turnover is that of a turnover row with the
    same (identifier, year-month), or null when no turnover row has that
    key; its market type and listing date are those of one basic row with
    the same identifier, or both null when no basic row has it. *)
Theorem values_from_matching_rows (np_argsort : list string → list nat)
    raw_data h d t :
  inputs h d = Some t →
  ∃ rows,
    returned (create_merged_monthly_dataset np_argsort raw_data (Some d) h)
    = Ok rows ∧
    ∀ r, r ∈ rows →
      (∃ m, m ∈ monthly_trade t ∧ Panel.trade r = scale_trade m) ∧
      ((∃ tr, tr ∈ turnover t ∧ Turnover.key tr = Panel.key r ∧
              Panel.ToverOsM r = Turnover.ToverOsM tr) ∨
       ((∀ tr, tr ∈ turnover t → Turnover.key tr ≠ Panel.key r) ∧
        Panel.ToverOsM r = nan)) ∧
      ((∃ b, b ∈ basic_info t ∧ Basic.Stkcd b = Panel.Stkcd r ∧
             Panel.Markettype r = Basic.Markettype b ∧
             Panel.Listdt r = Basic.Listdt b) ∨
       ((∀ b, b ∈ basic_info t → Basic.Stkcd b ≠ Panel.Stkcd r) ∧
        Panel.Markettype r = None ∧ Panel.Listdt r = None)).
Proof.
  intros Ht. exists (panel_of np_argsort t).
  split; [by apply returned_run|].
  intros r (m & tr & b & Hm & Htr & Hb & ->)%elem_of_merged_monthly.
  split; [by exists m|]. split.
  - destruct tr as [tr|]; [left|right].
    + destruct Htr as [Htr Hk]. by exists tr.
    + done.
  - destruct b as [b|]; [left|right].
    + destruct Hb as [Hb Hk]. by exists b.
    + done.
Qed.

Lemma values_from_matching_rows_witness :
  inputs Example.store Example.data_dict = Some Example.all ∧
  ∃ rows,
    returned (create_merged_monthly_dataset stable_argsort Example.raw_data
                (Some Example.data_dict) Example.store)
    = Ok rows ∧
    ∀ r, r ∈ rows →
      (∃ m, m ∈ monthly_trade Example.all ∧ Panel.trade r = scale_trade m) ∧
      ((∃ tr, tr ∈ turnover Example.all ∧ Turnover.key tr = Panel.key r ∧
              Panel.ToverOsM r = Turnover.ToverOsM tr) ∨
       ((∀ tr, tr ∈ turnover Example.all → Turnover.key tr ≠ Panel.key r) ∧
        Panel.ToverOsM r = nan)) ∧
      ((∃ b, b ∈ basic_info Example.all ∧ Basic.Stkcd b = Panel.Stkcd r ∧
             Panel.Markettype r = Basic.Markettype b ∧
             Panel.Listdt r = Basic.Listdt b) ∨
       ((∀ b, b ∈ basic_info Example.all → Basic.Stkcd b ≠ Panel.Stkcd r) ∧
        Panel.Markettype r = None ∧ Panel.Listdt r = None)).
Proof.
  split; [reflexivity|].
  apply (values_from_matching_rows stable_argsort Example.raw_data
           Example.store Example.data_dict Example.all).
  reflexivity.
Defined.

(** X11: the panel is empty exactly when [monthly_trade] is, whatever the
    other tables hold. *)
Theorem panel_empty_iff (np_argsort : list string → list nat)
    raw_data h d t :
  inputs h d = Some t →
  ∃ rows,
    returned (create_merged_monthly_dataset np_argsort raw_data (Some d) h)
    = Ok rows ∧
    (rows = [] ↔ monthly_trade t = []).
Proof.
  intros Ht. exists (panel_of np_argsort t).
  split; [by apply returned_run|]. split.
  - intros Hnil.
    pose proof (merged_monthly_length_ge np_argsort (monthly_trade t)
                  (turnover t) (industry t) (basic_info t)) as Hge.
    fold (panel_of np_argsort t) in Hge. rewrite Hnil in Hge. simpl in Hge.
    apply nil_length_inv. lia.
  - intros Hnil. apply nil_length_inv.
    by rewrite panel_of_length, merged_of_length, Hnil.
Qed.

Lemma panel_empty_iff_witness :
  inputs Example.store Example.data_dict = Some Example.all ∧
  ∃ rows,
    returned (create_merged_monthly_dataset stable_argsort Example.raw_data
                (Some Example.data_dict) Example.store)
    = Ok rows ∧
    (rows = [] ↔ monthly_trade Example.all = []).
Proof.
  split; [reflexivity|].
  apply (panel_empty_iff stable_argsort Example.raw_data Example.store
           Example.data_dict Example.all).
  reflexivity.
Defined.

(** X12: with an empty turnover table, an empty industry table and empty
    basic information the panel is [monthly_trade], sorted and rescaled,
    with a null in each of the five added columns. *)
Theorem trades_alone (np_argsort : list string → list nat)
    raw_data h d t :
  inputs h d = Some t →
  turnover t = [] → industry t = [] → basic_info t = [] →
  returned (create_merged_monthly_dataset np_argsort raw_data (Some d) h)
  = Ok ((λ m, Panel.mk (scale_trade m) nan None None None None) <$>
          stable_sort (on_key Monthly.key panel_key_le) (monthly_trade t)).
Proof.
  intros Ht Htr Hi Hb. rewrite (returned_run _ _ _ _ _ Ht).
  rewrite panel_of_sorted, merged_of_bind.
  assert (∀ m, rows_of_trade np_argsort t m
               = [Panel.mk m nan None None None None]) as Hrows.
  { intros m. unfold rows_of_trade, panel_row.
    rewrite Htr, Hi, Hb, sort_values_Listdt_nil. simpl.
    unfold industry_lookup. by destruct (Monthly.Stkcd m). }
  rewrite (list_bind_ext _ (λ m, [Panel.mk m nan None None None None])
             _ (monthly_trade t)) by done.
  rewrite list_bind_singleton. unfold sort_values_Stkcd_Trdmnt.
  rewrite <-(stable_sort_fmap (λ m, Panel.mk m nan None None None None)
               (on_key Monthly.key panel_key_le)
               (on_key Panel.key panel_key_le)) by done.
  by rewrite <-list_fmap_compose.
Qed.

Lemma trades_alone_witness :
  inputs trades_only_store Example.data_dict
  = Some (mk_tables Example.monthly [] [] []) ∧
  returned (create_merged_monthly_dataset stable_argsort Example.raw_data
              (Some Example.data_dict) trades_only_store)
  = Ok ((λ m, Panel.mk (scale_trade m) nan None None None None) <$>
          stable_sort (on_key Monthly.key panel_key_le) Example.monthly).
Proof.
  split; [reflexivity|].
  apply (trades_alone stable_argsort Example.raw_data trades_only_store
           Example.data_dict (mk_tables Example.monthly [] [] []));
    reflexivity.
Defined.

(** X13: a row of the panel without an identifier has no industry code and
    no industry name, even when the industry table has rows without an
    identifier ([groupby] drops them); and the rows without an identifier
    come last in the panel. *)
Theorem null_identifiers_last (np_argsort : list string → list nat)
    raw_data h d t :
  inputs h d = Some t →
  ∃ rows,
    returned (create_merged_monthly_dataset np_argsort raw_data (Some d) h)
    = Ok rows ∧
    (∀ r, r ∈ rows → Panel.Stkcd r = None →
          Panel.Nnindcd r = None ∧ Panel.Nnindnme r = None) ∧
    (∀ i j r r', i ≤ j → rows !! i = Some r → rows !! j = Some r' →
                 Panel.Stkcd r = None → Panel.Stkcd r' = None).
Proof.
  intros Ht. exists (panel_of np_argsort t).
  split; [by apply returned_run|]. split.
  - intros r (m & tr & b & _ & _ & _ & ->)%elem_of_merged_monthly Hs.
    change (Monthly.Stkcd m = None) in Hs.
    unfold scale_Msmvosd, panel_row. simpl. by rewrite Hs.
  - intros i j r r' Hij Hi Hj Hs.
    destruct (decide (i = j)) as [->|Hne]; [congruence|].
    pose proof (StronglySorted_lookup_lt _ _ i j r r'
                  (panel_of_StronglySorted np_argsort t)) as Hle.
    destruct Hle as [Hle _]; [lia|done..|].
    unfold Panel.key, Monthly.key in Hle. simpl in Hle.
    unfold Panel.Stkcd in *. rewrite Hs in Hle.
    by destruct (Monthly.Stkcd (Panel.trade r')).
Qed.

Lemma null_identifiers_last_witness :
  inputs Unidentified.store Example.data_dict = Some Unidentified.all ∧
  ∃ rows,
    returned (create_merged_monthly_dataset stable_argsort Example.raw_data
                (Some Example.data_dict) Unidentified.store)
    = Ok rows ∧
    (∀ r, r ∈ rows → Panel.Stkcd r = None →
          Panel.Nnindcd r = None ∧ Panel.Nnindnme r = None) ∧
    (∀ i j r r', i ≤ j → rows !! i = Some r → rows !! j = Some r' →
                 Panel.Stkcd r = None → Panel.Stkcd r' = None).
Proof.
  split; [reflexivity|].
  apply (null_identifiers_last stable_argsort Example.raw_data
           Unidentified.store Example.data_dict Unidentified.all).
  reflexivity.
Defined.

(** X14: when [argsort] meets numpy's contract, the latest-industry frame
    has exactly one row for each identifier of the industry table, none for
    a null identifier, and the identifiers in ascending order. *)
Theorem latest_industry_one_row_each (np_argsort : list string → list nat)
    (df : list Industry.row) :
  argsort_sorts np_argsort →
  NoDup (Industry.Stkcd <$> latest_industry np_argsort df) ∧
  StronglySorted (na_last String.le)
    (Industry.Stkcd <$> latest_industry np_argsort df) ∧
  ∀ k, k ∈ Industry.Stkcd <$> latest_industry np_argsort df ↔
       is_Some k ∧ k ∈ Industry.Stkcd <$> df.
Proof.
  intros Hsorts. split; [apply groupby_Stkcd_last_NoDup|].
  rewrite latest_industry_Stkcd. split.
  - apply (StronglySorted_fmap_elem_of String.le).
    + by intros s1 s2 _ _ ?.
    + apply stable_sort_StronglySorted; apply _.
  - intros k. rewrite list_elem_of_fmap.
    setoid_rewrite stable_sort_Permutation.
    setoid_rewrite elem_of_remove_dups.
    setoid_rewrite list_elem_of_omap.
    setoid_rewrite (sort_values_Listdt_Permutation np_argsort Hsorts df).
    rewrite list_elem_of_fmap. split.
    + intros (s & -> & i & Hi & Hs). split; [by eexists|]. by exists i.
    + intros [[s ->] (i & Hs & Hi)]. exists s. split; [done|]. by exists i.
Qed.

Lemma latest_industry_one_row_each_witness :
  NoDup (Industry.Stkcd <$> latest_industry stable_argsort Example.industry) ∧
  StronglySorted (na_last String.le)
    (Industry.Stkcd <$> latest_industry stable_argsort Example.industry) ∧
  ∀ k, k ∈ Industry.Stkcd <$> latest_industry stable_argsort Example.industry ↔
       is_Some k ∧ k ∈ Industry.Stkcd <$> Example.industry.
Proof.
  apply (latest_industry_one_row_each stable_argsort Example.industry).
  exact stable_argsort_sorts.
Defined.

(** X15: when [argsort] meets numpy's contract, the industry code of a row
    of the panel is the code of an industry row of the same identifier, and
    it is null exactly when no industry row of that identifier has a code;
    the same holds of the industry name. *)
Theorem industry_fields_of_identifier (np_argsort : list string → list nat)
    raw_data h d t :
  argsort_sorts np_argsort →
  inputs h d = Some t →
  ∃ rows,
    returned (create_merged_monthly_dataset np_argsort raw_data (Some d) h)
    = Ok rows ∧
    ∀ r s, r ∈ rows → Panel.Stkcd r = Some s →
      (∀ c, Panel.Nnindcd r = Some c →
            ∃ i, i ∈ industry t ∧ Industry.Stkcd i = Some s ∧
                 Industry.Nnindcd i = Some c) ∧
      (Panel.Nnindcd r = None ↔
       ∀ i, i ∈ industry t → Industry.Stkcd i = Some s →
            Industry.Nnindcd i = None) ∧
      (∀ n, Panel.Nnindnme r = Some n →
            ∃ i, i ∈ industry t ∧ Industry.Stkcd i = Some s ∧
                 Industry.Nnindnme i = Some n) ∧
      (Panel.Nnindnme r = None ↔
       ∀ i, i ∈ industry t → Industry.Stkcd i = Some s →
            Industry.Nnindnme i = None).
Proof.
  intros Hsorts Ht. exists (panel_of np_argsort t).
  split; [by apply returned_run|].
  intros r s (m & tr & b & _ & _ & _ & ->)%elem_of_merged_monthly Hs.
  change (Monthly.Stkcd m = Some s) in Hs.
  change (Panel.Nnindcd (scale_Msmvosd ?r)) with (Panel.Nnindcd r).
  change (Panel.Nnindnme (scale_Msmvosd ?r)) with (Panel.Nnindnme r).
  rewrite (panel_row_Nnindcd_group _ _ _ _ _ _ Hs).
  rewrite (panel_row_Nnindnme_group _ _ _ _ _ _ Hs).
  split_and!.
  - apply last_valid_group_Some.
  - by apply last_valid_group_None.
  - apply last_valid_group_Some.
  - by apply last_valid_group_None.
Qed.

Lemma industry_fields_of_identifier_witness :
  inputs Example.store Example.data_dict = Some Example.all ∧
  ∃ rows,
    returned (create_merged_monthly_dataset stable_argsort Example.raw_data
                (Some Example.data_dict) Example.store)
    = Ok rows ∧
    ∀ r s, r ∈ rows → Panel.Stkcd r = Some s →
      (∀ c, Panel.Nnindcd r = Some c →
            ∃ i, i ∈ industry Example.all ∧ Industry.Stkcd i = Some s ∧
                 Industry.Nnindcd i = Some c) ∧
      (Panel.Nnindcd r = None ↔
       ∀ i, i ∈ industry Example.all → Industry.Stkcd i = Some s →
            Industry.Nnindcd i = None) ∧
      (∀ n, Panel.Nnindnme r = Some n →
            ∃ i, i ∈ industry Example.all ∧ Industry.Stkcd i = Some s ∧
                 Industry.Nnindnme i = Some n) ∧
      (Panel.Nnindnme r = None ↔
       ∀ i, i ∈ industry Example.all → Industry.Stkcd i = Some s →
            Industry.Nnindnme i = None).
Proof.
  split; [reflexivity|].
  apply (industry_fields_of_identifier stable_argsort Example.raw_data
           Example.store Example.data_dict Example.all).
  - exact stable_argsort_sorts.
  - reflexivity.
Defined.

(** X16: when one industry row of an identifier is later than all its
    others, which all have a date, and that row has a code and a name, every
    row of the panel for the identifier carries that code and that name,
    whatever order [argsort] gives to equal dates. *)
Lemma latest_industry_single_max (np_argsort : list string → list nat)
    raw_data h d t s r0 d0 c n :
  argsort_sorts np_argsort →
  inputs h d = Some t →
  r0 ∈ industry t →
  Industry.Stkcd r0 = Some s → Industry.Listdt r0 = Some d0 →
  Industry.Nnindcd r0 = Some c → Industry.Nnindnme r0 = Some n →
  (∀ r, r ∈ industry t → Industry.Stkcd r = Some s →
        r = r0 ∨ (na_last String.le (Industry.Listdt r) (Some d0) ∧
                  Industry.Listdt r ≠ Some d0)) →
  ∃ rows,
    returned (create_merged_monthly_dataset np_argsort raw_data (Some d) h)
    = Ok rows ∧
    ∀ r, r ∈ rows → Panel.Stkcd r = Some s →
         Panel.Nnindcd r = Some c ∧ Panel.Nnindnme r = Some n.
Proof.
  intros Hsorts Ht Hr0 Hs Hd0 Hc Hn Hmax. exists (panel_of np_argsort t).
  split; [by apply returned_run|]. intros r Hr Hrs.
  eapply panel_industry_last; [done| |done..].
  by eapply sorted_group_last_max.
Qed.

Lemma latest_industry_single_max_witness :
  inputs Example.store Example.data_dict = Some Example.all ∧
  ∃ rows,
    returned (create_merged_monthly_dataset stable_argsort Example.raw_data
                (Some Example.data_dict) Example.store)
    = Ok rows ∧
    ∀ r, r ∈ rows → Panel.Stkcd r = Some "000001" →
         Panel.Nnindcd r = Some "J66" ∧ Panel.Nnindnme r = Some "Banking".
Proof.
  split; [reflexivity|].
  apply (latest_industry_single_max stable_argsort Example.raw_data
           Example.store Example.data_dict Example.all "000001"
           (Industry.mk (Some "000001") (Some "J66") (Some "Banking")
              (Some "2020-01-01"))
           "2020-01-01" "J66" "Banking").
  - exact stable_argsort_sorts.
  - reflexivity.
  - right. left.
  - reflexivity.
  - reflexivity.
  - reflexivity.
  - reflexivity.
  - intros r Hr Hs. simpl in Hr.
    repeat (apply elem_of_cons in Hr as [->|Hr]).
    + right. split; [compute_done|discriminate].
    + by left.
    + discriminate.
    + by apply elem_of_nil in Hr.
Defined.

(** X17: the call can be repeated: a second call with the same mapping,
    in the store the first call left, gives the result of the first, the
    same panel (the market value is not rescaled twice) or the same
    exception. *)
Theorem repeated_call (np_argsort : list string → list nat)
    raw_data h d :
  dict_valid h d →
  let out := create_merged_monthly_dataset np_argsort raw_data (Some d) h in
  returned (create_merged_monthly_dataset np_argsort raw_data (Some d) out.2)
  = returned out.
Proof.
  intros Hvalid out.
  destruct (keeps_create_merged_monthly_dataset h np_argsort raw_data
              (Some d) h) as [Hext _].
  { unfold extends. apply firstn_all. }
  fold out in Hext.
  unfold out at 2. rewrite !returned_outcome;
    [|done|by eapply dict_valid_extends].
  by rewrite !(table_extends h out.2).
Qed.

Lemma repeated_call_witness :
  let out := create_merged_monthly_dataset stable_argsort Example.raw_data
               (Some Example.data_dict) Example.store in
  returned (create_merged_monthly_dataset stable_argsort Example.raw_data
              (Some Example.data_dict) out.2)
  = returned out.
Proof.
  apply (repeated_call stable_argsort Example.raw_data Example.store
           Example.data_dict).
  apply example_dict_valid. reflexivity.
Defined.

(** ** The module run as a script *)


(** X19: with five files that parse into tables with the columns the
    loader names, the script shows the first five rows of the panel; the
    number of securities it prints is the number of distinct identifiers of
    [monthly_trade.txt], the missing-value markers apart, and the range of
    months it prints is that of [monthly_trade.txt]. *)
Theorem main_report (np_argsort : list string → list nat)
    (rb : list Raw.basic) (ri : list Raw.industry) (rd : list Raw.daily)
    (rm : list Raw.monthly) (rt : list Raw.turnover) (h : list DataFrame) :
  let raw_data :=
    mk_directory (Parsed rb) (Parsed ri) (Parsed rd) (Parsed rm) (Parsed rt) in
  ∃ rep rows,
    (main np_argsort raw_data h).1 = Ok rep ∧
    returned (create_merged_monthly_dataset np_argsort raw_data None h)
    = Ok rows ∧
    preview rep = take 5 rows ∧
    Stkcd_nunique rep = nunique (read_str ∘ Raw.monthly_Stkcd <$> rm) ∧
    Trdmnt_min rep = series_min (Raw.monthly_Trdmnt <$> rm) ∧
    Trdmnt_max rep = series_max (Raw.monthly_Trdmnt <$> rm).
Proof.
  intros raw_data.
  eexists _, (panel_of np_argsort (loaded_tables rb ri rm rt)).
  split; [apply main_run|].
  split; [apply create_merged_monthly_dataset_loaded|].
  split; [done|]. simpl. split_and!.
  - apply nunique_ext. intros s.
    rewrite (elem_of_panel_of_trade np_argsort Monthly.Stkcd) by done.
    simpl. by rewrite <-list_fmap_compose.
  - apply series_min_ext. intros x.
    rewrite (elem_of_panel_of_trade np_argsort Monthly.Trdmnt) by done.
    simpl. by rewrite <-list_fmap_compose.
  - apply series_max_ext. intros x.
    rewrite (elem_of_panel_of_trade np_argsort Monthly.Trdmnt) by done.
    simpl. by rewrite <-list_fmap_compose.
Qed.

(** X20: the number of industries the script prints is at most the number
    of securities it prints, and at most the number of distinct industry
    codes of the industry file. *)
Theorem main_industries (np_argsort : list string → list nat)
    (rb : list Raw.basic) (ri : list Raw.industry) (rd : list Raw.daily)
    (rm : list Raw.monthly) (rt : list Raw.turnover) (h : list DataFrame) :
  ∃ rep,
    (main np_argsort
       (mk_directory (Parsed rb) (Parsed ri) (Parsed rd) (Parsed rm)
          (Parsed rt)) h).1
    = Ok rep ∧
    Nnindcd_nunique rep ≤ Stkcd_nunique rep ∧
    Nnindcd_nunique rep ≤ nunique (read_str ∘ Raw.industry_Nnindcd <$> ri).
Proof.
  eexists. split; [apply main_run|]. simpl. split.
  - apply (nunique_image (λ s,
      industry_lookup
        (sort_values_Listdt np_argsort (read_industry <$> ri)) (Some s)
      ≫= Industry.Nnindcd)).
    intros c (r & Hc & Hr)%list_elem_of_fmap. pose proof Hr as Hin.
    apply elem_of_merged_monthly in Hr as (m & tr & b & _ & _ & _ & Hrow).
    rewrite Hrow in Hc. unfold scale_Msmvosd, panel_row in Hc. simpl in Hc.
    destruct (Monthly.Stkcd m) as [s|] eqn:Hs; [|done].
    exists s. split; [|done].
    apply list_elem_of_fmap. exists r. split; [|done].
    rewrite Hrow. by rewrite <-Hs.
  - apply (nunique_image Some).
    intros c (r & Hc & Hr)%list_elem_of_fmap.
    apply elem_of_merged_monthly in Hr as (m & tr & b & _ & _ & _ & ->).
    change (Panel.Nnindcd (scale_Msmvosd ?r)) with (Panel.Nnindcd r) in Hc.
    symmetry in Hc. apply panel_row_Nnindcd in Hc as (i & Hi & Hc).
    exists c. split; [|done].
    simpl in Hi. apply list_elem_of_fmap in Hi as (i0 & -> & Hi0).
    apply list_elem_of_fmap. exists i0. split; [|done]. by rewrite <-Hc.
Qed.
